(** * qmi-firmware-update: process lifecycle and cancellation

    A shallow embedding of [src/qmi-firmware-update/qfu-main.c]: the runtime
    globals ([loop], [cancellable], [exit_status]), the unix signal handler
    [signals_handler], the GLib log handler [log_handler] and [main].

    GLib itself is not part of the program.  The few GLib entry points the
    file calls are modelled by their documented contract, as operations of a
    state monad over the runtime globals (section "GLib"). *)

From Stdlib Require Import ZArith List String Ascii Bool Lia DecimalString.
Open Scope string_scope.
Open Scope list_scope.
Import ListNotations.
Open Scope Z_scope.

(** ** Constants of the C library and of GLib used by the file *)

(** <stdlib.h> *)
Definition EXIT_SUCCESS : Z := 0.
Definition EXIT_FAILURE : Z := 1.

(** <signal.h> (Linux numbering) *)
Definition SIGHUP : Z := 1.
Definition SIGINT : Z := 2.
Definition SIGTERM : Z := 15.

(** The three signals [main] installs [signals_handler] for, in the order of
    the calls. *)
Definition monitored_signals : list Z := [SIGINT; SIGHUP; SIGTERM].

(** The line feed written as [\n] in the C string literals. *)
Definition LF : string := String (ascii_of_nat 10) EmptyString.

(** <glibconfig.h>, with 64-bit pointers and [long].  A pointer is its
    address.  [GUINT_TO_POINTER (u)] is [((gpointer) (gulong) (u))]: the value
    converted to 64 bits unsigned.  [GPOINTER_TO_INT (p)] is
    [((gint) (glong) (p))]: the low 32 bits of the address, read as a signed
    integer. *)
Definition GUINT_TO_POINTER (u : Z) : Z := u mod 2 ^ 64.
Definition GPOINTER_TO_INT (p : Z) : Z :=
  let w := p mod 2 ^ 32 in
  if w <? 2 ^ 31 then w else w - 2 ^ 32.

(** ** Runtime globals *)

(** A unix signal source attached to the default main context by
    [g_unix_signal_add]: its id, the signal it watches and the [user_data]
    handed to the callback (the callback is always [signals_handler]). *)
Record GSource : Type := mkSource {
  source_id : nat;
  source_signum : Z;
  source_data : Z
}.

(** [loop], [cancellable] and [exit_status] are the file's globals.  The
    attached signal sources and the error stream are the part of the
    environment the handler acts on.  [cancel_requests] is a ghost counter: the
    number of calls of [g_cancellable_cancel] so far. *)
Record runtime : Type := mkRuntime {
  loop_running : bool;
  cancelled : bool;
  cancel_requests : nat;
  exit_status : Z;
  sources : list GSource;
  next_source_id : nat;
  err_stream : list string
}.

(** ** A state monad over the runtime *)

Definition M (A : Type) : Type := runtime -> A * runtime.

Definition ret {A : Type} (a : A) : M A := fun s => (a, s).

Definition bind {A B : Type} (c : M A) (k : A -> M B) : M B :=
  fun s => let (a, s') := c s in k a s'.

Notation "x <- c ;; k" := (bind c (fun x => k))
  (at level 61, c at next level, right associativity).
Notation "c ;; k" := (bind c (fun _ => k))
  (at level 61, right associativity).

(** ** GLib *)

Definition g_cancellable_is_cancelled : M bool :=
  fun s => (cancelled s, s).

Definition g_cancellable_cancel : M unit :=
  fun s => (tt, mkRuntime (loop_running s) true (S (cancel_requests s))
                          (exit_status s) (sources s) (next_source_id s)
                          (err_stream s)).

Definition g_printerr (msg : string) : M unit :=
  fun s => (tt, mkRuntime (loop_running s) (cancelled s) (cancel_requests s)
                          (exit_status s) (sources s) (next_source_id s)
                          (err_stream s ++ [msg])).

(** Attaches a new source watching [signum]; the result is the source id. *)
Definition g_unix_signal_add (signum : Z) (user_data : Z) : M nat :=
  fun s => (next_source_id s,
            mkRuntime (loop_running s) (cancelled s) (cancel_requests s)
                      (exit_status s)
                      (sources s ++ [mkSource (next_source_id s) signum user_data])
                      (S (next_source_id s)) (err_stream s)).

Definition g_main_loop_is_running : M bool :=
  fun s => (loop_running s, s).

Definition g_main_loop_quit : M unit :=
  fun s => (tt, mkRuntime false (cancelled s) (cancel_requests s)
                          (exit_status s) (sources s) (next_source_id s)
                          (err_stream s)).

(** The assignment [exit_status = v]. *)
Definition set_exit_status (v : Z) : M unit :=
  fun s => (tt, mkRuntime (loop_running s) (cancelled s) (cancel_requests s)
                          v (sources s) (next_source_id s) (err_stream s)).

(** ** Signal handlers *)

Definition signals_handler (psignum : Z) : M bool :=
  (* Flag failed exit *)
  set_exit_status EXIT_FAILURE ;;
  (* Ignore consecutive requests of cancellation *)
  c <- g_cancellable_is_cancelled ;;
  if negb c then
    g_printerr ("cancelling the operation..." ++ LF)%string ;;
    g_cancellable_cancel ;;
    (* Re-set the signal handler to allow main loop cancellation on
       second signal *)
    _ <- g_unix_signal_add (GPOINTER_TO_INT psignum) psignum ;;
    ret false
  else
    r <- g_main_loop_is_running ;;
    (if r then
       g_printerr ("cancelling the main loop..." ++ LF)%string ;;
       g_main_loop_quit
     else ret tt) ;;
    ret false.

(** ** Dispatch of the signal sources *)

Definition watches (signum : Z) (src : GSource) : bool :=
  source_signum src =? signum.

Definition attached (id : nat) (s : runtime) : bool :=
  existsb (fun x => Nat.eqb (source_id x) id) (sources s).

Definition g_source_destroy (id : nat) : M unit :=
  fun s => (tt, mkRuntime (loop_running s) (cancelled s) (cancel_requests s)
                          (exit_status s)
                          (filter (fun x => negb (Nat.eqb (source_id x) id))
                                  (sources s))
                          (next_source_id s) (err_stream s)).

(** A ready source that is still attached has its callback called with its
    [user_data]; the source is destroyed when the callback returns [FALSE]
    (the [GSourceFunc] contract). *)
Definition dispatch (src : GSource) : M unit :=
  fun s =>
    if attached (source_id src) s then
      (keep <- signals_handler (source_data src) ;;
       if keep then ret tt else g_source_destroy (source_id src)) s
    else (tt, s).

Fixpoint dispatch_all (pending : list GSource) : M unit :=
  match pending with
  | [] => ret tt
  | src :: rest => dispatch src ;; dispatch_all rest
  end.

(** Delivery of signal [signum] to the process.  Every source watching it
    becomes ready and is dispatched.  With no source watching it GLib has no
    handler installed for the signal (it restores [SIG_DFL] when the last
    source of a signal goes away): the result is [None], the default
    disposition. *)
Definition deliver (signum : Z) (s : runtime) : option runtime :=
  match filter (watches signum) (sources s) with
  | [] => None
  | pending => Some (snd (dispatch_all pending s))
  end.

(** ** The events the main loop dispatches *)

(** Modelled from the spec: the completion callback of the device operation,
    which is not in the file ([main] starts no operation yet).  Section 4.4:
    "the device operation reports completion (success or failure) and calls
    the loop's stop entry point, setting ExitStatus accordingly"; "ExitStatus
    is never overwritten after LoopState becomes Stopped -- any component
    attempting to set it after that point is a no-op/ignored".  Section 8,
    scenario B: after a first signal a completion, success or failure, leaves
    the exit status at the Failure the signal wrote.  So a completion on a
    stopped loop does nothing; on a running loop a failure sets
    [EXIT_FAILURE], a success leaves the exit status as it is (the pre-set
    [EXIT_SUCCESS], or the [EXIT_FAILURE] of a signal), and the loop is
    stopped. *)
Definition operation_completed (ok : bool) : M unit :=
  r <- g_main_loop_is_running ;;
  if r then
    (if ok then ret tt else set_exit_status EXIT_FAILURE) ;;
    g_main_loop_quit
  else ret tt.

Inductive event : Type :=
| Ev_signal (signum : Z)
| Ev_completed (ok : bool).

(** The process is alive, or a signal was delivered to it that no source
    watches, so that it was left to its default disposition (the last runtime
    state is kept).  The default disposition is taken to be the termination of
    the process, as it is for the three signals of the program; a signal that
    is ignored by default is not told apart: a run in which one is delivered
    has the states of the run without it. *)
Inductive process : Type :=
| Alive (s : runtime)
| Killed (signum : Z) (s : runtime).

Definition runtime_of (p : process) : runtime :=
  match p with
  | Alive s => s
  | Killed _ s => s
  end.

Definition is_alive (p : process) : bool :=
  match p with
  | Alive _ => true
  | Killed _ _ => false
  end.

Definition step (e : event) (p : process) : process :=
  match p with
  | Killed _ _ => p
  | Alive s =>
      match e with
      | Ev_signal signum =>
          match deliver signum s with
          | Some s' => Alive s'
          | None => Killed signum s
          end
      | Ev_completed ok => Alive (snd (operation_completed ok s))
      end
  end.

Definition run_events (es : list event) (p : process) : process :=
  fold_left (fun q e => step e q) es p.

(** ** The main loop *)

Inductive loop_result : Type :=
| Returned (s : runtime)
| Signalled (signum : Z) (s : runtime)
| Waiting (s : runtime).

(** [while (loop->is_running) g_main_context_iterate (...)].  The schedule
    gives, for each iteration, the events that are ready in it; an iteration
    dispatches all of them, also those that follow a [g_main_loop_quit].  When
    the schedule is exhausted nothing becomes ready any more and the loop
    waits. *)
Fixpoint main_loop_iterations (schedule : list (list event)) (s : runtime)
  : loop_result :=
  if loop_running s then
    match schedule with
    | [] => Waiting s
    | ready :: rest =>
        match run_events ready (Alive s) with
        | Alive s' => main_loop_iterations rest s'
        | Killed signum s' => Signalled signum s'
        end
    end
  else Returned s.

(** [g_main_loop_run] first sets [loop->is_running]. *)
Definition set_running (s : runtime) : runtime :=
  mkRuntime true (cancelled s) (cancel_requests s) (exit_status s)
            (sources s) (next_source_id s) (err_stream s).

Definition g_main_loop_run (schedule : list (list event)) (s : runtime)
  : loop_result :=
  main_loop_iterations schedule (set_running s).

(** ** Main options *)

Record options : Type := mkOptions {
  device_str : option string;
  device_open_proxy_flag : bool;
  device_open_mbim_flag : bool;
  verbose_flag : bool;
  silent_flag : bool;
  version_flag : bool
}.

(** ** main *)

(** Create runtime context: [g_main_loop_new (NULL, FALSE)],
    [g_cancellable_new ()], [exit_status = EXIT_SUCCESS]. *)
Definition create_runtime_context : runtime :=
  mkRuntime false false 0 EXIT_SUCCESS [] 1 [].

(** Setup signals *)
Definition setup_signals : M unit :=
  _ <- g_unix_signal_add SIGINT (GUINT_TO_POINTER SIGINT) ;;
  _ <- g_unix_signal_add SIGHUP (GUINT_TO_POINTER SIGHUP) ;;
  _ <- g_unix_signal_add SIGTERM (GUINT_TO_POINTER SIGTERM) ;;
  ret tt.

(** The runtime state [g_main_loop_run] is entered with. *)
Definition run_entry : runtime := snd (setup_signals create_runtime_context).

(** The runtime state when the loop starts to iterate. *)
Definition run_start : runtime := set_running run_entry.

(** How the process ends: it exits with a code (the lines written to the
    error stream are kept), it is terminated by a signal, or it never ends
    (the loop waits for ever). *)
Inductive outcome : Type :=
| Exited (code : Z) (err : list string)
| Terminated (signum : Z)
| Blocked.

(** How [g_option_context_parse] ends when it does not hand the options to
    [main]: it fails with an error message, or, given a help option (help is
    enabled in a new option context and the file does not disable it), it
    prints the usage on the standard output and calls [exit (0)] itself. *)
Inductive parse_stop : Type :=
| Parse_error (message : string)
| Help_shown.

(** [parsed] is the result of [g_option_context_parse]: how it stopped, or
    the option globals.  The locale, type system and log handler set-up calls
    do not touch the runtime globals and are left out, and so is the text
    [print_version_and_exit] writes to the standard output. *)
Definition main (parsed : parse_stop + options) (schedule : list (list event))
  : outcome :=
  match parsed with
  | inl (Parse_error message) =>
      Exited EXIT_FAILURE [("error: " ++ message ++ LF)%string]
  | inl Help_shown => Exited 0 []
  | inr opts =>
      if version_flag opts then Exited EXIT_SUCCESS []
      else
        match device_str opts with
        | None =>
            Exited EXIT_FAILURE [("error: no device path specified" ++ LF)%string]
        | Some _ =>
            match g_main_loop_run schedule run_entry with
            | Returned s => Exited (exit_status s) (err_stream s)
            | Signalled signum _ => Terminated signum
            | Waiting _ => Blocked
            end
        end
  end.


(** ** Logging output *)

(** GLogLevelFlags, <glib/gmessages.h> *)
Definition G_LOG_FLAG_RECURSION : Z := Z.shiftl 1 0.
Definition G_LOG_FLAG_FATAL : Z := Z.shiftl 1 1.
Definition G_LOG_LEVEL_ERROR : Z := Z.shiftl 1 2.
Definition G_LOG_LEVEL_CRITICAL : Z := Z.shiftl 1 3.
Definition G_LOG_LEVEL_WARNING : Z := Z.shiftl 1 4.
Definition G_LOG_LEVEL_MESSAGE : Z := Z.shiftl 1 5.
Definition G_LOG_LEVEL_INFO : Z := Z.shiftl 1 6.
Definition G_LOG_LEVEL_DEBUG : Z := Z.shiftl 1 7.

(** The fields of [struct tm] the format of [log_handler] reads. *)
Record tm : Type := mkTm {
  tm_sec : Z;
  tm_min : Z;
  tm_hour : Z;
  tm_mday : Z;
  tm_mon : Z;
  tm_year : Z
}.

(** The stream a line is written to. *)
Inductive stream : Type :=
| Stdout
| Stderr.

(** A number in decimal. *)
Definition decimal (z : Z) : string := NilZero.string_of_int (Z.to_int z).

(** A number in decimal, zero-padded to two digits ([%d], [%H], [%M], [%S]). *)
Definition decimal2 (z : Z) : string :=
  if (0 <=? z) && (z <? 10) then ("0" ++ decimal z)%string else decimal z.

Section Logging.

(** The abbreviated month names of the current locale, by [tm_mon]. *)
Variable abmon : Z -> string.

(** One conversion specification of [strftime]; the ones the program does
    not use are copied as they are. *)
Definition strftime_conversion (c : ascii) (t : tm) : string :=
  if Ascii.eqb c "d" then decimal2 (tm_mday t)
  else if Ascii.eqb c "b" then abmon (tm_mon t)
  else if Ascii.eqb c "Y" then decimal (1900 + tm_year t)
  else if Ascii.eqb c "H" then decimal2 (tm_hour t)
  else if Ascii.eqb c "M" then decimal2 (tm_min t)
  else if Ascii.eqb c "S" then decimal2 (tm_sec t)
  else String "%" (String c EmptyString).

Fixpoint strftime_expand (format : string) (t : tm) : string :=
  match format with
  | EmptyString => EmptyString
  | String c rest =>
      if Ascii.eqb c "%" then
        match rest with
        | EmptyString => String c EmptyString
        | String d rest' =>
            (strftime_conversion d t ++ strftime_expand rest' t)%string
        end
      else String c (strftime_expand rest t)
  end.

(** [strftime (buf, max, format, t)]: the expansion when it fits in [max]
    bytes with its terminating NUL; otherwise the call fails and the
    contents of the buffer are not specified. *)
Definition strftime (max : nat) (format : string) (t : tm) : option string :=
  let r := strftime_expand format t in
  if Nat.ltb (String.length r) max then Some r else None.

(** The [switch (log_level)]: the level string and the [err] flag. *)
Definition log_level_switch (log_level : Z) : string * bool :=
  if log_level =? G_LOG_LEVEL_WARNING then ("-Warning **", true)
  else if (log_level =? G_LOG_LEVEL_CRITICAL)
          || (log_level =? G_LOG_FLAG_FATAL)
          || (log_level =? G_LOG_LEVEL_ERROR) then ("-Error **", true)
  else if log_level =? G_LOG_LEVEL_DEBUG then ("[Debug]", false)
  else (EmptyString, false).

(** [opts] holds the option globals [silent_flag] and [verbose_flag];
    [local_time] is the result of [localtime (&now)]; [time_str0] is what
    the local array [time_str] holds before [strftime] is called, which is
    what it is taken to hold when [strftime] fails.  The result is the line
    written and the stream it is written to, or [None] when nothing is
    written. *)
Definition log_handler (opts : options) (local_time : tm) (time_str0 : string)
  (log_domain : option string) (log_level : Z) (message : string)
  (user_data : Z) : option (stream * string) :=
  (* Nothing to do if we're silent *)
  if silent_flag opts then None
  else
    let time_str :=
      match strftime 64 "%d %b %Y, %H:%M:%S" local_time with
      | Some r => r
      | None => time_str0
      end in
    let (log_level_str, err) := log_level_switch log_level in
    if negb (verbose_flag opts) && negb err then None
    else
      Some (if err then Stderr else Stdout,
            ("[" ++ time_str ++ "] " ++ log_level_str ++ " " ++ message ++ LF)%string).

End Logging.

(** The abbreviated month names of the C locale. *)
Definition abmon_C (m : Z) : string :=
  nth (Z.to_nat m)
      ["Jan"; "Feb"; "Mar"; "Apr"; "May"; "Jun";
       "Jul"; "Aug"; "Sep"; "Oct"; "Nov"; "Dec"] "?".

(** ** Predicates on events and runtime states *)

Definition is_signal (e : event) : bool :=
  match e with
  | Ev_signal _ => true
  | Ev_completed _ => false
  end.

(** A source as [main] and the handler register them: for one of the three
    signals, with the signal number as [user_data]. *)
Definition source_wf (x : GSource) : Prop :=
  In (source_signum x) monitored_signals /\
  source_data x = GUINT_TO_POINTER (source_signum x).

Definition sources_inv (s : runtime) : Prop :=
  Forall source_wf (sources s) /\ NoDup (map source_signum (sources s)).

(** What the error stream can hold, with the state of the token. *)
Definition console_ok (s : runtime) : Prop :=
  (cancelled s = false /\ cancel_requests s = 0%nat /\ err_stream s = []) \/
  (cancelled s = true /\ cancel_requests s = 1%nat /\
   err_stream s = [("cancelling the operation..." ++ LF)%string]) \/
  (cancelled s = true /\ cancel_requests s = 1%nat /\ loop_running s = false /\
   err_stream s = [("cancelling the operation..." ++ LF)%string;
                   ("cancelling the main loop..." ++ LF)%string]).

(** A stopped loop has the exit status [EXIT_FAILURE]. *)
Definition stopped_failed (s : runtime) : Prop :=
  loop_running s = false -> exit_status s = EXIT_FAILURE.

(** ** Properties of the signal handler *)

Ltac run_handler :=
  unfold signals_handler, bind, set_exit_status, g_cancellable_is_cancelled,
    g_printerr, g_cancellable_cancel, g_unix_signal_add,
    g_main_loop_is_running, g_main_loop_quit, ret; simpl.

Lemma GPOINTER_TO_INT_monitored (sig : Z) :
  In sig monitored_signals ->
  GPOINTER_TO_INT (GUINT_TO_POINTER sig) = sig.
Proof.
  unfold monitored_signals; simpl.
  intros [H | [H | [H | []]]]; subst; reflexivity.
Qed.

(** The first-request branch, for any [user_data]. *)
Lemma signals_handler_not_cancelled (psignum : Z) (s : runtime) :
  cancelled s = false ->
  signals_handler psignum s =
    (false,
     mkRuntime (loop_running s) true (S (cancel_requests s)) EXIT_FAILURE
               (sources s ++
                [mkSource (next_source_id s) (GPOINTER_TO_INT psignum) psignum])
               (S (next_source_id s))
               (err_stream s ++ [("cancelling the operation..." ++ LF)%string])).
Proof.
  intros Hc. run_handler. rewrite Hc. reflexivity.
Qed.

(** The branch taken when the token is cancelled already. *)
Lemma signals_handler_already_cancelled (psignum : Z) (s : runtime) :
  cancelled s = true ->
  signals_handler psignum s =
    (false,
     mkRuntime false true (cancel_requests s) EXIT_FAILURE
               (sources s) (next_source_id s)
               (if loop_running s
                then err_stream s ++ [("cancelling the main loop..." ++ LF)%string]
                else err_stream s)).
Proof.
  destruct s as [running c n status srcs next err]; simpl.
  intros ->. run_handler. destruct running; reflexivity.
Qed.

Lemma signals_handler_returns_FALSE (psignum : Z) (s : runtime) :
  fst (signals_handler psignum s) = false.
Proof.
  destruct (cancelled s) eqn:Hc.
  - rewrite signals_handler_already_cancelled by assumption. reflexivity.
  - rewrite signals_handler_not_cancelled by assumption. reflexivity.
Qed.

Lemma signals_handler_exit_status (psignum : Z) (s : runtime) :
  exit_status (snd (signals_handler psignum s)) = EXIT_FAILURE.
Proof.
  destruct (cancelled s) eqn:Hc.
  - rewrite signals_handler_already_cancelled by assumption. reflexivity.
  - rewrite signals_handler_not_cancelled by assumption. reflexivity.
Qed.

Lemma signals_handler_cancels (psignum : Z) (s : runtime) :
  cancelled (snd (signals_handler psignum s)) = true.
Proof.
  destruct (cancelled s) eqn:Hc.
  - rewrite signals_handler_already_cancelled by assumption. reflexivity.
  - rewrite signals_handler_not_cancelled by assumption. reflexivity.
Qed.

(** C2. When a monitored signal is delivered while the token is not yet
    cancelled, the handler sets the exit status to [EXIT_FAILURE], writes
    exactly one line to the error stream, cancels the token (one request),
    attaches a new source for the same signal, returns [FALSE] and leaves the
    main loop as it was: a running loop keeps running. *)
Theorem signals_handler_first_request (sig : Z) (s : runtime) :
  In sig monitored_signals ->
  cancelled s = false ->
  signals_handler (GUINT_TO_POINTER sig) s =
    (false,
     mkRuntime (loop_running s) true (S (cancel_requests s)) EXIT_FAILURE
               (sources s ++
                [mkSource (next_source_id s) sig (GUINT_TO_POINTER sig)])
               (S (next_source_id s))
               (err_stream s ++ [("cancelling the operation..." ++ LF)%string])).
Proof.
  intros Hsig Hc.
  rewrite (signals_handler_not_cancelled _ _ Hc).
  rewrite (GPOINTER_TO_INT_monitored sig Hsig).
  reflexivity.
Qed.

Lemma signals_handler_first_request_witness :
  signals_handler (GUINT_TO_POINTER SIGINT) run_start =
    (false,
     mkRuntime true true 1 EXIT_FAILURE
               (sources run_start ++ [mkSource 4 SIGINT (GUINT_TO_POINTER SIGINT)])
               5
               [("cancelling the operation..." ++ LF)%string]).
Proof.
  apply (signals_handler_first_request SIGINT run_start).
  - simpl. auto.
  - reflexivity.
Defined.

(** C3. When a signal is delivered while the token is cancelled already, the
    handler requests no further cancellation ([cancel_requests] and the
    sources are as before) and returns [FALSE]; a running loop is stopped by
    this very call, after one line on the error stream; when the loop is not
    running nothing is written and the loop stays stopped.  In both cases the
    exit status is the [EXIT_FAILURE] every call starts by writing. *)
Theorem signals_handler_second_signal (psignum : Z) (s : runtime) :
  cancelled s = true ->
  signals_handler psignum s =
    (false,
     mkRuntime false true (cancel_requests s) EXIT_FAILURE
               (sources s) (next_source_id s)
               (if loop_running s
                then err_stream s ++ [("cancelling the main loop..." ++ LF)%string]
                else err_stream s)).
Proof.
  exact (signals_handler_already_cancelled psignum s).
Qed.

Lemma signals_handler_second_signal_witness :
  signals_handler (GUINT_TO_POINTER SIGTERM)
    (mkRuntime true true 1 EXIT_FAILURE [] 5 []) =
    (false,
     mkRuntime false true 1 EXIT_FAILURE [] 5
               [("cancelling the main loop..." ++ LF)%string]).
Proof.
  apply (signals_handler_second_signal (GUINT_TO_POINTER SIGTERM)
           (mkRuntime true true 1 EXIT_FAILURE [] 5 [])).
  reflexivity.
Defined.

(** ** Properties of the dispatch *)

Lemma filter_not_attached (id : nat) (l : list GSource) :
  existsb (fun x => Nat.eqb (source_id x) id) l = false ->
  filter (fun x => negb (Nat.eqb (source_id x) id)) l = l.
Proof.
  induction l as [| x l IH]; simpl; intros H.
  - reflexivity.
  - apply orb_false_iff in H. destruct H as [Hx Hl].
    rewrite Hx. simpl. rewrite IH by assumption. reflexivity.
Qed.

Lemma In_attached (x : GSource) (s : runtime) :
  In x (sources s) -> attached (source_id x) s = true.
Proof.
  intros H. unfold attached. apply existsb_exists.
  exists x. split; [assumption | apply Nat.eqb_refl].
Qed.

(** Dispatching a source that is attached calls the handler and then destroys
    the source, since the handler returns [FALSE]. *)
Lemma dispatch_attached (src : GSource) (s : runtime) :
  attached (source_id src) s = true ->
  dispatch src s =
    g_source_destroy (source_id src) (snd (signals_handler (source_data src) s)).
Proof.
  intros Ha. unfold dispatch. rewrite Ha. unfold bind.
  pose proof (signals_handler_returns_FALSE (source_data src) s) as Hk.
  destruct (signals_handler (source_data src) s) as [keep s1].
  simpl in Hk. subst keep. reflexivity.
Qed.

(** What one dispatch does once the token is cancelled. *)
Lemma dispatch_cancelled (src : GSource) (s : runtime) :
  cancelled s = true ->
  let s' := snd (dispatch src s) in
  cancelled s' = true /\
  cancel_requests s' = cancel_requests s /\
  next_source_id s' = next_source_id s /\
  sources s' =
    filter (fun x => negb (Nat.eqb (source_id x) (source_id src))) (sources s) /\
  (exit_status s' = exit_status s \/ exit_status s' = EXIT_FAILURE) /\
  (loop_running s = false -> loop_running s' = false).
Proof.
  intros Hc. destruct (attached (source_id src) s) eqn:Ha.
  - rewrite dispatch_attached by assumption.
    rewrite signals_handler_already_cancelled by assumption.
    simpl. repeat split; auto.
  - unfold dispatch. rewrite Ha. simpl.
    unfold attached in Ha. rewrite filter_not_attached by assumption.
    repeat split; auto.
Qed.

Lemma dispatch_all_cancelled (pending : list GSource) :
  forall s : runtime,
    cancelled s = true ->
    let s' := snd (dispatch_all pending s) in
    cancelled s' = true /\
    cancel_requests s' = cancel_requests s /\
    next_source_id s' = next_source_id s /\
    (forall x, In x (sources s') <->
               In x (sources s) /\ ~ In (source_id x) (map source_id pending)) /\
    (exit_status s' = exit_status s \/ exit_status s' = EXIT_FAILURE) /\
    (loop_running s = false -> loop_running s' = false).
Proof.
  induction pending as [| src rest IH]; intros s Hc; simpl.
  - repeat split; auto; tauto.
  - unfold bind.
    destruct (dispatch_cancelled src s Hc) as (H1 & H2 & H3 & H4 & H5 & H6).
    destruct (dispatch src s) as [u s1]. simpl in H1, H2, H3, H4, H5, H6.
    destruct (IH s1 H1) as (K1 & K2 & K3 & K4 & K5 & K6).
    split; [assumption |].
    split; [congruence |].
    split; [congruence |].
    split.
    + intros x. rewrite K4, H4, filter_In, negb_true_iff, Nat.eqb_neq.
      intuition congruence.
    + split.
      * destruct K5 as [K5 | K5]; [rewrite K5; assumption | right; assumption].
      * intros Hr. apply K6, H6, Hr.
Qed.

(** A delivery that is handled always leaves the exit status at
    [EXIT_FAILURE] and the token cancelled, and never restarts the loop. *)
Lemma deliver_handled (signum : Z) (s s' : runtime) :
  deliver signum s = Some s' ->
  exit_status s' = EXIT_FAILURE /\
  cancelled s' = true /\
  (loop_running s = false -> loop_running s' = false).
Proof.
  unfold deliver.
  destruct (filter (watches signum) (sources s)) as [| src rest] eqn:Hf;
    [discriminate |].
  intros H. injection H as <-.
  assert (Hin : In src (sources s)).
  { assert (Hx : In src (filter (watches signum) (sources s)))
      by (rewrite Hf; left; reflexivity).
    apply filter_In in Hx. tauto. }
  simpl. unfold bind.
  rewrite (dispatch_attached src s (In_attached src s Hin)).
  pose proof (signals_handler_exit_status (source_data src) s) as He.
  pose proof (signals_handler_cancels (source_data src) s) as Hc.
  assert (Hr : loop_running s = false ->
               loop_running (snd (signals_handler (source_data src) s)) = false).
  { intros Hr. destruct (cancelled s) eqn:Hcs.
    - rewrite signals_handler_already_cancelled by assumption. reflexivity.
    - rewrite signals_handler_not_cancelled by assumption. exact Hr. }
  destruct (signals_handler (source_data src) s) as [keep s1].
  simpl in He, Hc, Hr. unfold g_source_destroy.
  match goal with
  | |- context [dispatch_all rest ?st] =>
      destruct (dispatch_all_cancelled rest st Hc) as (K1 & _ & _ & _ & K5 & K6)
  end.
  simpl in K5, K6.
  split; [| split].
  - destruct K5 as [K5 | K5]; [exact (eq_trans K5 He) | exact K5].
  - exact K1.
  - intros Hr0. apply K6, Hr, Hr0.
Qed.

(** With the token cancelled, a handled delivery requests no cancellation,
    attaches nothing and removes every source that watches the signal. *)
Lemma deliver_cancelled (signum : Z) (s s' : runtime) :
  cancelled s = true ->
  deliver signum s = Some s' ->
  cancel_requests s' = cancel_requests s /\
  (forall x, In x (sources s') -> In x (sources s)) /\
  filter (watches signum) (sources s') = [].
Proof.
  intros Hc. unfold deliver.
  destruct (filter (watches signum) (sources s)) as [| src rest] eqn:Hf;
    [discriminate |].
  intros H. injection H as <-.
  destruct (dispatch_all_cancelled (src :: rest) s Hc) as (_ & K2 & _ & K4 & _).
  change (snd ((dispatch src ;; dispatch_all rest) s))
    with (snd (dispatch_all (src :: rest) s)).
  remember (snd (dispatch_all (src :: rest) s)) as s1 eqn:Es1.
  split; [exact K2 |].
  split.
  - intros x Hx. apply K4 in Hx. tauto.
  - destruct (filter (watches signum) (sources s1)) as [| y l] eqn:Hg;
      [reflexivity | exfalso].
    assert (Hy : In y (filter (watches signum) (sources s1)))
      by (rewrite Hg; left; reflexivity).
    apply filter_In in Hy. destruct Hy as [Hy Hw].
    apply K4 in Hy. destruct Hy as [Hy Hn].
    apply Hn. apply in_map. rewrite <- Hf. apply filter_In. tauto.
Qed.

(** ** Properties of the runs *)

Lemma run_events_cons (e : event) (es : list event) (p : process) :
  run_events (e :: es) p = run_events es (step e p).
Proof. reflexivity. Qed.

Lemma run_events_app (es1 es2 : list event) (p : process) :
  run_events (es1 ++ es2) p = run_events es2 (run_events es1 p).
Proof. unfold run_events. apply fold_left_app. Qed.

(** The state a completion leaves. *)
Lemma operation_completed_result (ok : bool) (s : runtime) :
  snd (operation_completed ok s) =
    if loop_running s
    then mkRuntime false (cancelled s) (cancel_requests s)
                   (if ok then exit_status s else EXIT_FAILURE)
                   (sources s) (next_source_id s) (err_stream s)
    else s.
Proof.
  unfold operation_completed, bind, g_main_loop_is_running, g_main_loop_quit,
    set_exit_status, ret.
  destruct (loop_running s); [| reflexivity].
  destruct ok; reflexivity.
Qed.

Lemma operation_completed_stops (ok : bool) (s : runtime) :
  loop_running (snd (operation_completed ok s)) = false.
Proof.
  rewrite operation_completed_result.
  destruct (loop_running s) eqn:Hr; [reflexivity | exact Hr].
Qed.

(** Once the token is cancelled no event resets it, requests a cancellation
    again or attaches a source. *)
Lemma step_cancelled (e : event) (p : process) :
  cancelled (runtime_of p) = true ->
  cancelled (runtime_of (step e p)) = true /\
  cancel_requests (runtime_of (step e p)) = cancel_requests (runtime_of p) /\
  (forall x, In x (sources (runtime_of (step e p))) ->
             In x (sources (runtime_of p))).
Proof.
  destruct p as [s | k s]; simpl; intros Hc.
  - destruct e as [signum | ok].
    + destruct (deliver signum s) as [s' |] eqn:Hd; simpl.
      * destruct (deliver_handled _ _ _ Hd) as (_ & H2 & _).
        destruct (deliver_cancelled _ _ _ Hc Hd) as (H3 & H4 & _).
        auto.
      * auto.
    + simpl runtime_of. rewrite operation_completed_result.
      destruct (loop_running s); simpl; auto.
  - auto.
Qed.

Lemma run_events_cancelled (es : list event) :
  forall p : process,
    cancelled (runtime_of p) = true ->
    cancelled (runtime_of (run_events es p)) = true /\
    cancel_requests (runtime_of (run_events es p)) = cancel_requests (runtime_of p) /\
    (forall x, In x (sources (runtime_of (run_events es p))) ->
               In x (sources (runtime_of p))).
Proof.
  induction es as [| e es IH]; intros p Hc.
  - simpl. auto.
  - rewrite run_events_cons.
    destruct (step_cancelled e p Hc) as (H1 & H2 & H3).
    destruct (IH (step e p) H1) as (K1 & K2 & K3).
    split; [assumption |]. split; [congruence | auto].
Qed.

(** Once the loop is stopped with the exit status at [EXIT_FAILURE], signal
    deliveries change neither. *)
Lemma signals_after_failed_stop (sigs : list Z) :
  forall p : process,
    loop_running (runtime_of p) = false ->
    exit_status (runtime_of p) = EXIT_FAILURE ->
    loop_running (runtime_of (run_events (map Ev_signal sigs) p)) = false /\
    exit_status (runtime_of (run_events (map Ev_signal sigs) p)) = EXIT_FAILURE.
Proof.
  induction sigs as [| sig sigs IH]; intros p Hr He; simpl map.
  - simpl. auto.
  - rewrite run_events_cons. apply IH.
    + destruct p as [s | k s]; simpl in *; [| assumption].
      destruct (deliver sig s) as [s' |] eqn:Hd; simpl; [| assumption].
      destruct (deliver_handled _ _ _ Hd) as (_ & _ & H). auto.
    + destruct p as [s | k s]; simpl in *; [| assumption].
      destruct (deliver sig s) as [s' |] eqn:Hd; simpl; [| assumption].
      destruct (deliver_handled _ _ _ Hd) as (H & _). exact H.
Qed.

(** In a run made of signal deliveries a stopped loop has the exit status
    [EXIT_FAILURE]: only the handler stops the loop there. *)
Lemma signals_stop_with_failure (sigs : list Z) :
  forall p : process,
    (loop_running (runtime_of p) = false ->
     exit_status (runtime_of p) = EXIT_FAILURE) ->
    loop_running (runtime_of (run_events (map Ev_signal sigs) p)) = false ->
    exit_status (runtime_of (run_events (map Ev_signal sigs) p)) = EXIT_FAILURE.
Proof.
  induction sigs as [| sig sigs IH]; intros p Hp; simpl map.
  - simpl. exact Hp.
  - rewrite run_events_cons. apply IH.
    destruct p as [s | k s]; simpl in *; [| assumption].
    destruct (deliver sig s) as [s' |] eqn:Hd; simpl; [| assumption].
    destruct (deliver_handled _ _ _ Hd) as (H & _). intros _. exact H.
Qed.

(** C1.  The events of a run of the program are signal deliveries ([main]
    starts nothing else).  In every such run, when the loop is stopped the
    exit status is [EXIT_FAILURE] and is not changed any more: a call of the
    handler in that state leaves the exit status as it is and the loop
    stopped, and so does any sequence of further deliveries. *)
Theorem exit_status_after_stop (sigs more : list Z) (psignum : Z) :
  loop_running
    (runtime_of (run_events (map Ev_signal sigs) (Alive run_start))) = false ->
  exit_status
    (runtime_of (run_events (map Ev_signal sigs) (Alive run_start)))
    = EXIT_FAILURE /\
  exit_status
    (snd (signals_handler psignum
            (runtime_of (run_events (map Ev_signal sigs) (Alive run_start)))))
    = exit_status
        (runtime_of (run_events (map Ev_signal sigs) (Alive run_start))) /\
  loop_running
    (snd (signals_handler psignum
            (runtime_of (run_events (map Ev_signal sigs) (Alive run_start)))))
    = false /\
  loop_running
    (runtime_of (run_events (map Ev_signal (sigs ++ more)) (Alive run_start)))
    = false /\
  exit_status
    (runtime_of (run_events (map Ev_signal (sigs ++ more)) (Alive run_start)))
    = exit_status
        (runtime_of (run_events (map Ev_signal sigs) (Alive run_start))).
Proof.
  intros Hstop.
  assert (He : exit_status
                 (runtime_of (run_events (map Ev_signal sigs) (Alive run_start)))
               = EXIT_FAILURE).
  { apply signals_stop_with_failure; [| exact Hstop].
    simpl. discriminate. }
  split; [exact He |].
  split; [rewrite He; apply signals_handler_exit_status |].
  split.
  { destruct (cancelled
                (runtime_of (run_events (map Ev_signal sigs) (Alive run_start))))
      eqn:Hc.
    - rewrite signals_handler_already_cancelled by assumption. reflexivity.
    - rewrite signals_handler_not_cancelled by assumption. exact Hstop. }
  rewrite map_app, run_events_app.
  destruct (signals_after_failed_stop more _ Hstop He) as [H1 H2].
  split; [exact H1 |]. rewrite H2, He. reflexivity.
Qed.

Lemma exit_status_after_stop_witness :
  let stopped :=
    runtime_of (run_events (map Ev_signal [SIGINT; SIGTERM]) (Alive run_start)) in
  let later :=
    runtime_of (run_events (map Ev_signal ([SIGINT; SIGTERM] ++ [SIGHUP; SIGHUP]))
                           (Alive run_start)) in
  loop_running stopped = false /\
  exit_status stopped = EXIT_FAILURE /\
  exit_status (snd (signals_handler (GUINT_TO_POINTER SIGHUP) stopped))
  = exit_status stopped /\
  loop_running (snd (signals_handler (GUINT_TO_POINTER SIGHUP) stopped)) = false /\
  loop_running later = false /\
  exit_status later = exit_status stopped.
Proof.
  split; [reflexivity |].
  apply (exit_status_after_stop [SIGINT; SIGTERM] [SIGHUP; SIGHUP]
           (GUINT_TO_POINTER SIGHUP)).
  reflexivity.
Defined.

(** C4. The token is not cancelled when the loop starts; it is cancelled after
    the first delivery of a monitored signal, and after every further event,
    whatever the events are; one cancellation request is made in all. *)
Theorem is_cancelled_monotone (first : Z) (later : list event) :
  In first monitored_signals ->
  cancelled run_start = false /\
  cancelled (runtime_of (step (Ev_signal first) (Alive run_start))) = true /\
  cancelled
    (runtime_of (run_events (Ev_signal first :: later) (Alive run_start))) = true /\
  cancel_requests
    (runtime_of (run_events (Ev_signal first :: later) (Alive run_start))) = 1%nat.
Proof.
  intros Hin.
  assert (H1 : cancelled (runtime_of (step (Ev_signal first) (Alive run_start)))
               = true /\
               cancel_requests
                 (runtime_of (step (Ev_signal first) (Alive run_start))) = 1%nat).
  { unfold monitored_signals in Hin. simpl in Hin.
    destruct Hin as [<- | [<- | [<- | []]]]; split; reflexivity. }
  destruct H1 as [H1 H2].
  split; [reflexivity |]. split; [exact H1 |].
  rewrite run_events_cons.
  destruct (run_events_cancelled later _ H1) as (K1 & K2 & _).
  split; [exact K1 | congruence].
Qed.

Lemma is_cancelled_monotone_witness :
  cancelled run_start = false /\
  cancelled (runtime_of (step (Ev_signal SIGHUP) (Alive run_start))) = true /\
  cancelled
    (runtime_of (run_events
                   (Ev_signal SIGHUP ::
                    [Ev_signal SIGHUP; Ev_signal SIGINT; Ev_completed true;
                     Ev_signal SIGHUP])
                   (Alive run_start))) = true /\
  cancel_requests
    (runtime_of (run_events
                   (Ev_signal SIGHUP ::
                    [Ev_signal SIGHUP; Ev_signal SIGINT; Ev_completed true;
                     Ev_signal SIGHUP])
                   (Alive run_start))) = 1%nat.
Proof.
  apply (is_cancelled_monotone SIGHUP
           [Ev_signal SIGHUP; Ev_signal SIGINT; Ev_completed true;
            Ev_signal SIGHUP]).
  simpl. auto.
Defined.

(** C5. The escalation state is shared by the three signals.  Whatever two
    monitored signals are delivered one after the other (interrupt then
    terminate among them), the first is handled with the loop left running and
    the exit status at [EXIT_FAILURE], and the handler called for the second
    one stops the loop; the process exits with [EXIT_FAILURE], be the two
    signals dispatched in two iterations of the loop or in one. *)
Theorem escalation_is_shared (opts : options) (dev : string) (a b : Z) :
  version_flag opts = false ->
  device_str opts = Some dev ->
  In a monitored_signals ->
  In b monitored_signals ->
  let p1 := step (Ev_signal a) (Alive run_start) in
  let p2 := step (Ev_signal b) p1 in
  is_alive p1 = true /\
  loop_running (runtime_of p1) = true /\
  exit_status (runtime_of p1) = EXIT_FAILURE /\
  is_alive p2 = true /\
  loop_running (runtime_of p2) = false /\
  exit_status (runtime_of p2) = EXIT_FAILURE /\
  err_stream (runtime_of p2) =
    [("cancelling the operation..." ++ LF)%string;
     ("cancelling the main loop..." ++ LF)%string] /\
  main (inr opts) [[Ev_signal a]; [Ev_signal b]] =
    Exited EXIT_FAILURE (err_stream (runtime_of p2)) /\
  main (inr opts) [[Ev_signal a; Ev_signal b]] =
    Exited EXIT_FAILURE (err_stream (runtime_of p2)).
Proof.
  intros Hv Hd Ha Hb. unfold main. rewrite Hv, Hd.
  unfold monitored_signals in Ha, Hb. simpl in Ha, Hb.
  destruct Ha as [<- | [<- | [<- | []]]];
    destruct Hb as [<- | [<- | [<- | []]]];
    repeat split; reflexivity.
Qed.

Lemma escalation_is_shared_witness :
  let p1 := step (Ev_signal SIGINT) (Alive run_start) in
  let p2 := step (Ev_signal SIGTERM) p1 in
  is_alive p1 = true /\
  loop_running (runtime_of p1) = true /\
  exit_status (runtime_of p1) = EXIT_FAILURE /\
  is_alive p2 = true /\
  loop_running (runtime_of p2) = false /\
  exit_status (runtime_of p2) = EXIT_FAILURE /\
  err_stream (runtime_of p2) =
    [("cancelling the operation..." ++ LF)%string;
     ("cancelling the main loop..." ++ LF)%string] /\
  main (inr (mkOptions (Some "/dev/cdc-wdm0") false false false false false))
       [[Ev_signal SIGINT]; [Ev_signal SIGTERM]] =
    Exited EXIT_FAILURE (err_stream (runtime_of p2)) /\
  main (inr (mkOptions (Some "/dev/cdc-wdm0") false false false false false))
       [[Ev_signal SIGINT; Ev_signal SIGTERM]] =
    Exited EXIT_FAILURE (err_stream (runtime_of p2)).
Proof.
  apply (escalation_is_shared
           (mkOptions (Some "/dev/cdc-wdm0") false false false false false)
           "/dev/cdc-wdm0" SIGINT SIGTERM).
  - reflexivity.
  - reflexivity.
  - simpl. auto.
  - simpl. auto.
Defined.

(** C9. The handler returns [FALSE] in every case and attaches a source only
    when it finds the token not cancelled.  So when a signal is delivered
    with the token cancelled and is handled, no source watches that signal
    afterwards: the next delivery of the same signal finds no handler and
    falls to the default disposition, and no later event attaches one
    again. *)
Theorem forced_stop_unregisters (signum : Z) (s s' : runtime)
  (more : list event) :
  cancelled s = true ->
  deliver signum s = Some s' ->
  (forall psignum st, fst (signals_handler psignum st) = false) /\
  (forall psignum st,
      sources (snd (signals_handler psignum st)) =
        if cancelled st then sources st
        else sources st ++
             [mkSource (next_source_id st) (GPOINTER_TO_INT psignum) psignum]) /\
  filter (watches signum) (sources s') = [] /\
  step (Ev_signal signum) (Alive s') = Killed signum s' /\
  filter (watches signum) (sources (runtime_of (run_events more (Alive s')))) = [].
Proof.
  intros Hc Hd.
  destruct (deliver_handled _ _ _ Hd) as (_ & Hc' & _).
  destruct (deliver_cancelled _ _ _ Hc Hd) as (_ & _ & Hnone).
  split; [exact signals_handler_returns_FALSE |].
  split.
  { intros psignum st. destruct (cancelled st) eqn:Hst.
    - rewrite signals_handler_already_cancelled by assumption. reflexivity.
    - rewrite signals_handler_not_cancelled by assumption. reflexivity. }
  split; [exact Hnone |].
  split.
  { simpl. unfold deliver. rewrite Hnone. reflexivity. }
  destruct (run_events_cancelled more (Alive s') Hc') as (_ & _ & Hincl).
  destruct (filter (watches signum)
              (sources (runtime_of (run_events more (Alive s')))))
    as [| y l] eqn:Hg; [reflexivity | exfalso].
  assert (Hy : In y (filter (watches signum)
                       (sources (runtime_of (run_events more (Alive s'))))))
    by (rewrite Hg; left; reflexivity).
  apply filter_In in Hy. destruct Hy as [Hy Hw].
  apply Hincl in Hy. simpl in Hy.
  assert (Hz : In y (filter (watches signum) (sources s')))
    by (apply filter_In; split; assumption).
  rewrite Hnone in Hz. exact Hz.
Qed.

Lemma forced_stop_unregisters_witness :
  let s := runtime_of (step (Ev_signal SIGINT) (Alive run_start)) in
  let s' := runtime_of (step (Ev_signal SIGINT) (Alive s)) in
  cancelled s = true /\
  deliver SIGINT s = Some s' /\
  filter (watches SIGINT) (sources s') = [] /\
  step (Ev_signal SIGINT) (Alive s') = Killed SIGINT s'.
Proof.
  split; [reflexivity |]. split; [reflexivity |].
  pose proof (forced_stop_unregisters SIGINT
                (runtime_of (step (Ev_signal SIGINT) (Alive run_start)))
                (runtime_of
                   (step (Ev_signal SIGINT)
                      (Alive (runtime_of
                                (step (Ev_signal SIGINT) (Alive run_start))))))
                [Ev_signal SIGTERM; Ev_signal SIGINT]
                eq_refl eq_refl) as H.
  destruct H as (_ & _ & H3 & H4 & _).
  split; [exact H3 | exact H4].
Defined.

(** ** Properties of main *)








(** ** Properties of the log handler *)

Example log_handler_sample :
  log_handler abmon_C (mkOptions (Some "/dev/cdc-wdm0") false false true false false)
    (mkTm 7 5 9 30 9 126) EmptyString None G_LOG_LEVEL_DEBUG "hello" 0
  = Some (Stdout, ("[30 Oct 2026, 09:05:07] [Debug] hello" ++ LF)%string).
Proof. vm_compute. reflexivity. Qed.

Lemma append_empty_r (s : string) : (s ++ EmptyString)%string = s.
Proof.
  induction s as [| c s IH]; simpl; [reflexivity | rewrite IH; reflexivity].
Qed.

Lemma string_app_assoc (a b c : string) :
  ((a ++ b) ++ c)%string = (a ++ (b ++ c))%string.
Proof.
  induction a as [| x a IH]; simpl; [reflexivity | rewrite IH; reflexivity].
Qed.

Lemma bracket_app (d m y h mi s rest : string) :
  ("[" ++ (d ++ " " ++ m ++ " " ++ y ++ ", " ++ h ++ ":" ++ mi ++ ":" ++ s)
       ++ rest)%string
  = ("[" ++ d ++ " " ++ m ++ " " ++ y ++ ", " ++ h ++ ":" ++ mi ++ ":" ++ s
         ++ rest)%string.
Proof.
  simpl. f_equal.
  repeat (rewrite string_app_assoc; simpl).
  reflexivity.
Qed.

(** The expansion of the format of [log_handler]. *)
Lemma strftime_expand_format (abmon : Z -> string) (t : tm) :
  strftime_expand abmon "%d %b %Y, %H:%M:%S" t =
    (decimal2 (tm_mday t) ++ " " ++ abmon (tm_mon t) ++ " " ++
     decimal (1900 + tm_year t) ++ ", " ++
     decimal2 (tm_hour t) ++ ":" ++ decimal2 (tm_min t) ++ ":" ++
     decimal2 (tm_sec t))%string.
Proof.
  cbn [strftime_expand strftime_conversion Ascii.eqb Bool.eqb].
  rewrite append_empty_r. reflexivity.
Qed.

Lemma strftime_Some (abmon : Z -> string) (max : nat) (format : string) (t : tm) :
  strftime abmon max format t <> None ->
  strftime abmon max format t = Some (strftime_expand abmon format t).
Proof.
  unfold strftime.
  destruct (Nat.ltb (String.length (strftime_expand abmon format t)) max);
    [reflexivity | congruence].
Qed.

(** The [switch], case by case. *)
Lemma log_level_switch_cases (log_level : Z) :
  (log_level = G_LOG_LEVEL_WARNING /\
   log_level_switch log_level = ("-Warning **", true)) \/
  (In log_level [G_LOG_LEVEL_CRITICAL; G_LOG_FLAG_FATAL; G_LOG_LEVEL_ERROR] /\
   log_level_switch log_level = ("-Error **", true)) \/
  (log_level = G_LOG_LEVEL_DEBUG /\
   log_level_switch log_level = ("[Debug]", false)) \/
  (~ In log_level [G_LOG_LEVEL_WARNING; G_LOG_LEVEL_CRITICAL; G_LOG_FLAG_FATAL;
                   G_LOG_LEVEL_ERROR; G_LOG_LEVEL_DEBUG] /\
   log_level_switch log_level = (EmptyString, false)).
Proof.
  unfold log_level_switch.
  destruct (Z.eqb_spec log_level G_LOG_LEVEL_WARNING) as [Hw | Hw];
    [left; auto |].
  destruct (Z.eqb_spec log_level G_LOG_LEVEL_CRITICAL) as [Hc | Hc];
    [right; left; simpl; auto |].
  destruct (Z.eqb_spec log_level G_LOG_FLAG_FATAL) as [Hf | Hf];
    [right; left; simpl; auto |].
  destruct (Z.eqb_spec log_level G_LOG_LEVEL_ERROR) as [He | He];
    [right; left; simpl; auto |].
  destruct (Z.eqb_spec log_level G_LOG_LEVEL_DEBUG) as [Hd | Hd];
    [right; right; left; auto |].
  right; right; right. split; [| reflexivity].
  simpl. intros [H | [H | [H | [H | [H | []]]]]]; congruence.
Qed.

Lemma error_like_not_debug (log_level : Z) :
  In log_level [G_LOG_LEVEL_WARNING; G_LOG_LEVEL_CRITICAL; G_LOG_FLAG_FATAL;
                G_LOG_LEVEL_ERROR] ->
  log_level <> G_LOG_LEVEL_DEBUG.
Proof.
  simpl. intros [H | [H | [H | [H | []]]]]; subst; discriminate.
Qed.

(** The [err] flag is set for the four values of the two first cases. *)
Lemma log_level_switch_err (log_level : Z) :
  snd (log_level_switch log_level) = true <->
  In log_level [G_LOG_LEVEL_WARNING; G_LOG_LEVEL_CRITICAL; G_LOG_FLAG_FATAL;
                G_LOG_LEVEL_ERROR].
Proof.
  destruct (log_level_switch_cases log_level)
    as [[H E] | [[H E] | [[H E] | [H E]]]]; rewrite E; simpl.
  - split; auto.
  - split; [intros _ | reflexivity]. simpl in H. tauto.
  - split; [discriminate |]. intros Hin.
    exfalso. exact (error_like_not_debug log_level Hin H).
  - split; [discriminate |]. intros Hin. exfalso. apply H.
    simpl in Hin. simpl. tauto.
Qed.

(** C6. With [silent_flag] set nothing is written, whatever the level and
    whatever [verbose_flag].  Otherwise, with [verbose_flag] set, a line is
    written for every level.  With neither set, a line is written for the
    levels the switch flags as errors and for no other: among the six levels
    of GLib, for warning, critical and error, and not for message, info and
    debug. *)
Theorem log_handler_filter (abmon : Z -> string) (opts : options)
  (local_time : tm) (time_str0 : string) (log_domain : option string)
  (log_level : Z) (message : string) (user_data : Z) :
  let written :=
    log_handler abmon opts local_time time_str0 log_domain log_level message
                user_data in
  (silent_flag opts = true -> written = None) /\
  (silent_flag opts = false -> verbose_flag opts = true -> written <> None) /\
  (silent_flag opts = false -> verbose_flag opts = false ->
   (written <> None <->
    In log_level [G_LOG_LEVEL_WARNING; G_LOG_LEVEL_CRITICAL; G_LOG_FLAG_FATAL;
                  G_LOG_LEVEL_ERROR])) /\
  (silent_flag opts = false -> verbose_flag opts = false ->
   In log_level [G_LOG_LEVEL_WARNING; G_LOG_LEVEL_CRITICAL; G_LOG_LEVEL_ERROR] ->
   written <> None) /\
  (silent_flag opts = false -> verbose_flag opts = false ->
   In log_level [G_LOG_LEVEL_MESSAGE; G_LOG_LEVEL_INFO; G_LOG_LEVEL_DEBUG] ->
   written = None).
Proof.
  intros written. subst written. unfold log_handler.
  pose proof (log_level_switch_err log_level) as Herr.
  destruct (log_level_switch log_level) as [str err]. simpl in Herr.
  assert (Hthree : In log_level [G_LOG_LEVEL_WARNING; G_LOG_LEVEL_CRITICAL;
                                 G_LOG_LEVEL_ERROR] -> err = true).
  { intros Hin. apply Herr. simpl in Hin. simpl. tauto. }
  assert (Hlow : In log_level [G_LOG_LEVEL_MESSAGE; G_LOG_LEVEL_INFO;
                               G_LOG_LEVEL_DEBUG] -> err = false).
  { intros Hin. destruct err; [exfalso | reflexivity].
    assert (Hhigh : In log_level [G_LOG_LEVEL_WARNING; G_LOG_LEVEL_CRITICAL;
                                  G_LOG_FLAG_FATAL; G_LOG_LEVEL_ERROR])
      by (apply Herr; reflexivity).
    simpl in Hin, Hhigh.
    destruct Hin as [H | [H | [H | []]]]; subst log_level;
      destruct Hhigh as [H | [H | [H | [H | []]]]]; discriminate. }
  split; [intros ->; reflexivity |].
  split; [intros -> ->; destruct err; discriminate |].
  split.
  { intros -> ->. rewrite <- Herr. destruct err; simpl.
    - split; [reflexivity | discriminate].
    - split; [congruence | discriminate]. }
  split.
  - intros -> -> Hin. rewrite (Hthree Hin). discriminate.
  - intros -> -> Hin. rewrite (Hlow Hin). reflexivity.
Qed.

Lemma log_handler_filter_witness :
  log_handler abmon_C
    (mkOptions (Some "/dev/cdc-wdm0") false false false false false)
    (mkTm 7 5 9 30 9 126) EmptyString (Some "Qmi") G_LOG_LEVEL_WARNING
    "cannot open" 0 <> None.
Proof.
  pose proof (log_handler_filter abmon_C
                (mkOptions (Some "/dev/cdc-wdm0") false false false false false)
                (mkTm 7 5 9 30 9 126) EmptyString (Some "Qmi")
                G_LOG_LEVEL_WARNING "cannot open" 0) as H.
  destruct H as (_ & _ & _ & H & _).
  apply H; [reflexivity | reflexivity | simpl; auto].
Defined.

(** C7. A line that is written is [[time] tag message] and a line feed, where
    the time is day, abbreviated month name, year, and hour:minute:second of
    the local time (when it fits in the 64 bytes of [time_str]), and the tag
    is [-Warning **] for warning, [-Error **] for critical, the fatal flag and
    error, [[Debug]] for debug and empty for any other level.  It goes to the
    error stream for the levels of the first two tags and to the standard
    output for all others. *)
Theorem log_handler_format (abmon : Z -> string) (opts : options)
  (local_time : tm) (time_str0 : string) (log_domain : option string)
  (log_level : Z) (message : string) (user_data : Z)
  (out : stream) (line : string) :
  strftime abmon 64 "%d %b %Y, %H:%M:%S" local_time <> None ->
  log_handler abmon opts local_time time_str0 log_domain log_level message
              user_data = Some (out, line) ->
  exists tag : string,
    line =
      ("[" ++ decimal2 (tm_mday local_time) ++ " " ++
       abmon (tm_mon local_time) ++ " " ++
       decimal (1900 + tm_year local_time) ++ ", " ++
       decimal2 (tm_hour local_time) ++ ":" ++
       decimal2 (tm_min local_time) ++ ":" ++
       decimal2 (tm_sec local_time) ++ "] " ++
       tag ++ " " ++ message ++ LF)%string /\
    (log_level = G_LOG_LEVEL_WARNING -> tag = "-Warning **") /\
    (In log_level [G_LOG_LEVEL_CRITICAL; G_LOG_FLAG_FATAL; G_LOG_LEVEL_ERROR] ->
     tag = "-Error **") /\
    (log_level = G_LOG_LEVEL_DEBUG -> tag = "[Debug]") /\
    (~ In log_level [G_LOG_LEVEL_WARNING; G_LOG_LEVEL_CRITICAL; G_LOG_FLAG_FATAL;
                     G_LOG_LEVEL_ERROR; G_LOG_LEVEL_DEBUG] ->
     tag = EmptyString) /\
    (out = Stderr <->
     In log_level [G_LOG_LEVEL_WARNING; G_LOG_LEVEL_CRITICAL; G_LOG_FLAG_FATAL;
                   G_LOG_LEVEL_ERROR]) /\
    (out = Stdout <->
     ~ In log_level [G_LOG_LEVEL_WARNING; G_LOG_LEVEL_CRITICAL; G_LOG_FLAG_FATAL;
                     G_LOG_LEVEL_ERROR]).
Proof.
  intros Hfits. unfold log_handler.
  rewrite (strftime_Some _ _ _ _ Hfits), strftime_expand_format.
  destruct (silent_flag opts); [discriminate |].
  pose proof (log_level_switch_err log_level) as Herr.
  pose proof (log_level_switch_cases log_level) as Hcases.
  destruct (log_level_switch log_level) as [tag err]. simpl in Herr.
  destruct (negb (verbose_flag opts) && negb err); [discriminate |].
  intros H. injection H as <- <-.
  exists tag. split.
  { apply bracket_app. }
  assert (Htag : (log_level = G_LOG_LEVEL_WARNING -> tag = "-Warning **") /\
                 (In log_level [G_LOG_LEVEL_CRITICAL; G_LOG_FLAG_FATAL;
                                G_LOG_LEVEL_ERROR] -> tag = "-Error **") /\
                 (log_level = G_LOG_LEVEL_DEBUG -> tag = "[Debug]") /\
                 (~ In log_level [G_LOG_LEVEL_WARNING; G_LOG_LEVEL_CRITICAL;
                                  G_LOG_FLAG_FATAL; G_LOG_LEVEL_ERROR;
                                  G_LOG_LEVEL_DEBUG] -> tag = EmptyString)).
  { destruct Hcases as [[H E] | [[H E] | [[H E] | [H E]]]];
      injection E as <- <-; subst; simpl.
    - repeat split; try reflexivity.
      + intros [K | [K | [K | []]]]; discriminate.
      + discriminate.
      + intros K. exfalso. apply K. auto.
    - repeat split; try reflexivity.
      + intros K. exfalso. simpl in H.
        destruct H as [H | [H | [H | []]]]; subst; discriminate.
      + intros K. exfalso. simpl in H.
        destruct H as [H | [H | [H | []]]]; subst; discriminate.
      + intros K. exfalso. apply K. simpl in H. tauto.
    - repeat split; try reflexivity.
      + discriminate.
      + intros [K | [K | [K | []]]]; discriminate.
      + intros K. exfalso. apply K. auto 10.
    - repeat split; try reflexivity.
      + intros K. exfalso. apply H. subst. simpl. auto.
      + intros K. exfalso. apply H. simpl in K. simpl. tauto.
      + intros K. exfalso. apply H. subst. simpl. auto 10. }
  destruct Htag as (T1 & T2 & T3 & T4).
  repeat (split; [assumption |]).
  split.
  - rewrite <- Herr. destruct err; split; congruence.
  - rewrite <- Herr. destruct err; split; congruence.
Qed.

Lemma log_handler_format_witness :
  exists tag : string,
    ("[30 Oct 2026, 09:05:07] [Debug] hello" ++ LF)%string =
      ("[" ++ decimal2 30 ++ " " ++ abmon_C 9 ++ " " ++ decimal (1900 + 126) ++
       ", " ++ decimal2 9 ++ ":" ++ decimal2 5 ++ ":" ++ decimal2 7 ++ "] " ++
       tag ++ " " ++ "hello" ++ LF)%string /\
    (G_LOG_LEVEL_DEBUG = G_LOG_LEVEL_WARNING -> tag = "-Warning **") /\
    (In G_LOG_LEVEL_DEBUG
        [G_LOG_LEVEL_CRITICAL; G_LOG_FLAG_FATAL; G_LOG_LEVEL_ERROR] ->
     tag = "-Error **") /\
    (G_LOG_LEVEL_DEBUG = G_LOG_LEVEL_DEBUG -> tag = "[Debug]") /\
    (~ In G_LOG_LEVEL_DEBUG
          [G_LOG_LEVEL_WARNING; G_LOG_LEVEL_CRITICAL; G_LOG_FLAG_FATAL;
           G_LOG_LEVEL_ERROR; G_LOG_LEVEL_DEBUG] ->
     tag = EmptyString) /\
    (Stdout = Stderr <->
     In G_LOG_LEVEL_DEBUG
        [G_LOG_LEVEL_WARNING; G_LOG_LEVEL_CRITICAL; G_LOG_FLAG_FATAL;
         G_LOG_LEVEL_ERROR]) /\
    (Stdout = Stdout <->
     ~ In G_LOG_LEVEL_DEBUG
          [G_LOG_LEVEL_WARNING; G_LOG_LEVEL_CRITICAL; G_LOG_FLAG_FATAL;
           G_LOG_LEVEL_ERROR]).
Proof.
  apply (log_handler_format abmon_C
           (mkOptions (Some "/dev/cdc-wdm0") false false true false false)
           (mkTm 7 5 9 30 9 126) EmptyString None G_LOG_LEVEL_DEBUG "hello" 0
           Stdout ("[30 Oct 2026, 09:05:07] [Debug] hello" ++ LF)%string).
  - vm_compute. discriminate.
  - vm_compute. reflexivity.
Defined.

(** C10. The switch compares the level with single values.  A level with
    more than one bit set (error with the fatal flag, for one) is none of
    them: it gets the empty level string and no [err] flag, so its line goes
    to the standard output and is only written with [verbose_flag] set. *)
Theorem log_handler_combined_bits (abmon : Z -> string) (opts : options)
  (local_time : tm) (time_str0 : string) (log_domain : option string)
  (log_level : Z) (message : string) (user_data : Z) :
  Z.land log_level (log_level - 1) <> 0 ->
  log_level_switch log_level = (EmptyString, false) /\
  log_handler abmon opts local_time time_str0 log_domain log_level message
              user_data =
    if silent_flag opts then None
    else if verbose_flag opts then
      Some (Stdout,
            ("[" ++
             match strftime abmon 64 "%d %b %Y, %H:%M:%S" local_time with
             | Some r => r
             | None => time_str0
             end ++ "] " ++ EmptyString ++ " " ++ message ++ LF)%string)
    else None.
Proof.
  intros Hbits.
  assert (Hsw : log_level_switch log_level = (EmptyString, false)).
  { destruct (log_level_switch_cases log_level)
      as [[H E] | [[H E] | [[H E] | [H E]]]]; try exact E; exfalso; apply Hbits.
    - subst. reflexivity.
    - simpl in H. destruct H as [H | [H | [H | []]]]; subst; reflexivity.
    - subst. reflexivity. }
  split; [exact Hsw |].
  unfold log_handler. rewrite Hsw.
  destruct (silent_flag opts); [reflexivity |].
  destruct (verbose_flag opts); reflexivity.
Qed.

Lemma log_handler_combined_bits_witness :
  Z.lor G_LOG_LEVEL_ERROR G_LOG_FLAG_FATAL = 6 /\
  log_level_switch (Z.lor G_LOG_LEVEL_ERROR G_LOG_FLAG_FATAL)
    = (EmptyString, false) /\
  log_handler abmon_C
    (mkOptions (Some "/dev/cdc-wdm0") false false false false false)
    (mkTm 7 5 9 30 9 126) EmptyString (Some "Qmi")
    (Z.lor G_LOG_LEVEL_ERROR G_LOG_FLAG_FATAL) "fatal" 0 = None.
Proof.
  split; [reflexivity |].
  apply (log_handler_combined_bits abmon_C
           (mkOptions (Some "/dev/cdc-wdm0") false false false false false)
           (mkTm 7 5 9 30 9 126) EmptyString (Some "Qmi")
           (Z.lor G_LOG_LEVEL_ERROR G_LOG_FLAG_FATAL) "fatal" 0).
  vm_compute. discriminate.
Defined.

(** ** Further properties of the signal handler *)

(** [main] packs the signal number into the [user_data] pointer with
    [GUINT_TO_POINTER] and the handler reads it back with [GPOINTER_TO_INT]:
    every [int] survives the round trip. *)
Lemma GPOINTER_TO_INT_GUINT_TO_POINTER (n : Z) :
  - 2 ^ 31 <= n < 2 ^ 31 ->
  GPOINTER_TO_INT (GUINT_TO_POINTER n) = n.
Proof.
  intros Hn. unfold GPOINTER_TO_INT, GUINT_TO_POINTER.
  rewrite Z.mod_mod_divide by (exists (2 ^ 32); reflexivity).
  destruct (Z.ltb_spec (n mod 2 ^ 32) (2 ^ 31)) as [H | H].
  - destruct (Z_lt_le_dec n 0) as [Hneg | Hpos].
    + exfalso.
      assert (E : n mod 2 ^ 32 = n + 2 ^ 32).
      { symmetry. apply (Z.mod_unique n (2 ^ 32) (-1)); lia. }
      lia.
    + apply Z.mod_small. lia.
  - destruct (Z_lt_le_dec n 0) as [Hneg | Hpos].
    + assert (E : n mod 2 ^ 32 = n + 2 ^ 32).
      { symmetry. apply (Z.mod_unique n (2 ^ 32) (-1)); lia. }
      lia.
    + exfalso. rewrite Z.mod_small in H by lia. lia.
Qed.

(** X1. Whatever [int] signal number a source is registered with the way
    [main] does it, the handler called with the token not cancelled attaches
    the new source for that very signal, with the same [user_data]. *)
Theorem signals_handler_rearms_same_signal (signum : Z) (s : runtime) :
  - 2 ^ 31 <= signum < 2 ^ 31 ->
  cancelled s = false ->
  GPOINTER_TO_INT (GUINT_TO_POINTER signum) = signum /\
  sources (snd (signals_handler (GUINT_TO_POINTER signum) s)) =
    sources s ++
    [mkSource (next_source_id s) signum (GUINT_TO_POINTER signum)] /\
  filter (watches signum)
         (sources (snd (signals_handler (GUINT_TO_POINTER signum) s))) <> [].
Proof.
  intros Hn Hc.
  pose proof (GPOINTER_TO_INT_GUINT_TO_POINTER signum Hn) as Hrt.
  split; [exact Hrt |].
  rewrite (signals_handler_not_cancelled _ _ Hc), Hrt. simpl.
  split; [reflexivity |].
  rewrite filter_app. simpl. unfold watches at 2. simpl.
  rewrite Z.eqb_refl. intros H. apply app_eq_nil in H.
  destruct H as [_ H]. discriminate.
Qed.

Lemma signals_handler_rearms_same_signal_witness :
  GPOINTER_TO_INT (GUINT_TO_POINTER (-1)) = -1 /\
  sources (snd (signals_handler (GUINT_TO_POINTER (-1)) create_runtime_context)) =
    sources create_runtime_context ++
    [mkSource (next_source_id create_runtime_context) (-1)
              (GUINT_TO_POINTER (-1))] /\
  filter (watches (-1))
         (sources (snd (signals_handler (GUINT_TO_POINTER (-1))
                                        create_runtime_context))) <> [].
Proof.
  apply (signals_handler_rearms_same_signal (-1) create_runtime_context).
  - lia.
  - reflexivity.
Defined.

(** X2. From any state of the globals, two calls of the handler leave the
    loop stopped, the token cancelled and the exit status [EXIT_FAILURE], and
    from there a further call changes nothing at all. *)
Theorem signals_handler_twice_stops (p1 p2 p3 : Z) (s : runtime) :
  let s2 := snd (signals_handler p2 (snd (signals_handler p1 s))) in
  loop_running s2 = false /\
  cancelled s2 = true /\
  exit_status s2 = EXIT_FAILURE /\
  signals_handler p3 s2 = (false, s2).
Proof.
  pose proof (signals_handler_cancels p1 s) as Hc1.
  destruct (signals_handler p1 s) as [k1 s1]. simpl in Hc1. simpl.
  rewrite (signals_handler_already_cancelled p2 s1 Hc1). simpl.
  split; [reflexivity |]. split; [reflexivity |]. split; [reflexivity |].
  match goal with
  | |- signals_handler p3 ?st = _ =>
      rewrite (signals_handler_already_cancelled p3 st eq_refl)
  end.
  reflexivity.
Qed.

(** ** Invariants of the runs *)

(** A property of the runtime that the handler and the removal of a source
    keep is kept by the dispatch of any sources. *)
Lemma dispatch_all_preserves (P : runtime -> Prop) :
  (forall psignum s, P s -> P (snd (signals_handler psignum s))) ->
  (forall id s, P s -> P (snd (g_source_destroy id s))) ->
  forall pending s, P s -> P (snd (dispatch_all pending s)).
Proof.
  intros Hh Hd. induction pending as [| src rest IH]; intros s Hs; simpl.
  - exact Hs.
  - unfold bind.
    assert (H1 : P (snd (dispatch src s))).
    { unfold dispatch. destruct (attached (source_id src) s); [| exact Hs].
      unfold bind. pose proof (Hh (source_data src) s Hs) as H.
      destruct (signals_handler (source_data src) s) as [keep s1]. simpl in H.
      destruct keep; [exact H | apply Hd; exact H]. }
    destruct (dispatch src s) as [u s1]. simpl in H1. apply IH. exact H1.
Qed.

Lemma step_signal_preserves (P : runtime -> Prop) :
  (forall psignum s, P s -> P (snd (signals_handler psignum s))) ->
  (forall id s, P s -> P (snd (g_source_destroy id s))) ->
  forall signum p, P (runtime_of p) -> P (runtime_of (step (Ev_signal signum) p)).
Proof.
  intros Hh Hd signum [s | k s] Hp; simpl; [| exact Hp].
  unfold deliver.
  destruct (filter (watches signum) (sources s)) as [| src rest]; simpl;
    [exact Hp |].
  apply (dispatch_all_preserves P Hh Hd (src :: rest) s Hp).
Qed.

Lemma run_events_invariant (P : runtime -> Prop) (Q : event -> Prop) :
  (forall e p, Q e -> P (runtime_of p) -> P (runtime_of (step e p))) ->
  forall es p,
    Forall Q es -> P (runtime_of p) -> P (runtime_of (run_events es p)).
Proof.
  intros Hstep. induction es as [| e es IH]; intros p Hq Hp; [exact Hp |].
  inversion Hq as [| x l Hx Hl]; subst.
  rewrite run_events_cons. apply IH; [exact Hl |].
  apply Hstep; assumption.
Qed.

Lemma console_ok_handler (psignum : Z) (s : runtime) :
  console_ok s -> console_ok (snd (signals_handler psignum s)).
Proof.
  unfold console_ok.
  intros [(Hc & Hn & He) | [(Hc & Hn & He) | (Hc & Hn & Hr & He)]].
  - rewrite (signals_handler_not_cancelled _ _ Hc). simpl.
    right. left. rewrite Hn, He. auto.
  - rewrite (signals_handler_already_cancelled _ _ Hc). simpl.
    rewrite Hn, He. destruct (loop_running s); simpl.
    + right. right. auto.
    + right. left. auto.
  - rewrite (signals_handler_already_cancelled _ _ Hc). simpl.
    rewrite Hn, He, Hr. right. right. auto.
Qed.

Lemma console_ok_step (e : event) (p : process) :
  console_ok (runtime_of p) -> console_ok (runtime_of (step e p)).
Proof.
  destruct e as [signum | ok].
  - apply step_signal_preserves.
    + exact console_ok_handler.
    + intros id s H. exact H.
  - destruct p as [s | k s]; simpl; [| tauto].
    rewrite operation_completed_result.
    destruct (loop_running s); [| tauto].
    unfold console_ok. simpl. tauto.
Qed.

(** X3. Whatever the events of a run, the error stream holds nothing while
    the token is not cancelled, the line of the cancellation request once it
    is, and after it at most the line of the forced stop, which is only there
    with the loop stopped; the token is cancelled by one request at most. *)
Theorem err_stream_of_a_run (es : list event) :
  let s := runtime_of (run_events es (Alive run_start)) in
  (cancelled s = false /\ cancel_requests s = 0%nat /\ err_stream s = []) \/
  (cancelled s = true /\ cancel_requests s = 1%nat /\
   err_stream s = [("cancelling the operation..." ++ LF)%string]) \/
  (cancelled s = true /\ cancel_requests s = 1%nat /\ loop_running s = false /\
   err_stream s = [("cancelling the operation..." ++ LF)%string;
                   ("cancelling the main loop..." ++ LF)%string]).
Proof.
  apply (run_events_invariant console_ok (fun _ => True)).
  - intros e p _. apply console_ok_step.
  - apply Forall_forall. intros; exact I.
  - left. repeat split.
Qed.

Lemma stopped_failed_step (signum : Z) (p : process) :
  stopped_failed (runtime_of p) ->
  stopped_failed (runtime_of (step (Ev_signal signum) p)).
Proof.
  apply step_signal_preserves.
  - intros psignum s _ _. apply signals_handler_exit_status.
  - intros id s H. exact H.
Qed.

Lemma main_loop_signals_failed (schedule : list (list event)) :
  forall s s' : runtime,
    Forall (Forall (fun e => is_signal e = true)) schedule ->
    stopped_failed s ->
    main_loop_iterations schedule s = Returned s' ->
    exit_status s' = EXIT_FAILURE.
Proof.
  induction schedule as [| ready rest IH]; intros s s' Hall Hs; simpl.
  - destruct (loop_running s) eqn:Hr; [discriminate |].
    intros H. injection H as <-. apply Hs, Hr.
  - destruct (loop_running s) eqn:Hr.
    + inversion Hall as [| x l Hready Hrest]; subst.
      assert (Hp : stopped_failed (runtime_of (run_events ready (Alive s)))).
      { apply (run_events_invariant stopped_failed
                 (fun e => is_signal e = true)); try assumption.
        intros [signum | ok] p He; [| discriminate].
        apply stopped_failed_step. }
      destruct (run_events ready (Alive s)) as [s1 | k s1]; [| discriminate].
      apply IH; assumption.
    + intros H. injection H as <-. apply Hs, Hr.
Qed.

(** X4. Unless a help option or the version option is given, a process whose
    loop only ever dispatches signals does not exit with [EXIT_SUCCESS]: when
    it exits, be it on an option parsing error, for want of a device path or
    after the loop has returned, the exit code is [EXIT_FAILURE]. *)
Theorem no_success_without_completion (parsed : parse_stop + options)
  (schedule : list (list event)) (code : Z) (err : list string) :
  Forall (Forall (fun e => is_signal e = true)) schedule ->
  parsed <> inl Help_shown ->
  (forall opts, parsed = inr opts -> version_flag opts = false) ->
  main parsed schedule = Exited code err ->
  code = EXIT_FAILURE.
Proof.
  intros Hall Hhelp Hver. unfold main.
  destruct parsed as [[message |] | opts].
  - intros H. injection H as <- _. reflexivity.
  - congruence.
  - rewrite (Hver opts eq_refl).
    destruct (device_str opts) as [dev |].
    + unfold g_main_loop_run. fold run_start.
      destruct (main_loop_iterations schedule run_start) as [s | k s | s] eqn:Hl;
        try discriminate.
      intros H. injection H as <- _.
      apply (main_loop_signals_failed schedule run_start s Hall); [| exact Hl].
      unfold stopped_failed. simpl. discriminate.
    + intros H. injection H as <- _. reflexivity.
Qed.

Lemma no_success_without_completion_witness : 1 = EXIT_FAILURE.
Proof.
  apply (no_success_without_completion
           (inr (mkOptions (Some "/dev/cdc-wdm0") false false false false false))
           [[Ev_signal SIGHUP]; []; [Ev_signal SIGINT; Ev_signal SIGTERM]]
           1
           [("cancelling the operation..." ++ LF)%string;
            ("cancelling the main loop..." ++ LF)%string]).
  - repeat constructor.
  - discriminate.
  - intros opts H. injection H as <-. reflexivity.
  - reflexivity.
Defined.

(** ** The attached sources *)

Lemma filter_nil_not_in (sig : Z) (l : list GSource) :
  ~ In sig (map source_signum l) -> filter (watches sig) l = [].
Proof.
  induction l as [| x l IH]; simpl; intros H; [reflexivity |].
  destruct (watches sig x) eqn:W.
  - exfalso. apply H. left. unfold watches in W. apply Z.eqb_eq in W. exact W.
  - apply IH. intros K. apply H. right. exact K.
Qed.

(** With one source per signal at most, a delivery makes one source ready at
    most. *)
Lemma filter_watches_NoDup (sig : Z) (l : list GSource) :
  NoDup (map source_signum l) ->
  filter (watches sig) l = [] \/ exists x, filter (watches sig) l = [x].
Proof.
  induction l as [| x l IH]; simpl; intros H; [left; reflexivity |].
  inversion H as [| y m Hx Hl]; subst.
  destruct (watches sig x) eqn:W.
  - right. exists x. rewrite filter_nil_not_in; [reflexivity |].
    unfold watches in W. apply Z.eqb_eq in W. rewrite <- W. exact Hx.
  - apply IH. exact Hl.
Qed.

Lemma NoDup_map_filter (p : GSource -> bool) (l : list GSource) :
  NoDup (map source_signum l) -> NoDup (map source_signum (filter p l)).
Proof.
  induction l as [| x l IH]; simpl; intros H; [constructor |].
  inversion H as [| y m Hx Hl]; subst.
  destruct (p x); simpl; [| apply IH; exact Hl].
  constructor; [| apply IH; exact Hl].
  intros K. apply Hx. apply in_map_iff in K.
  destruct K as (z & Ez & Hz). apply filter_In in Hz.
  apply in_map_iff. exists z. tauto.
Qed.

Lemma Forall_filter_wf (p : GSource -> bool) (l : list GSource) :
  Forall source_wf l -> Forall source_wf (filter p l).
Proof.
  intros H. apply Forall_forall. intros x Hx.
  apply filter_In in Hx. destruct Hx as [Hx _].
  rewrite Forall_forall in H. apply H. exact Hx.
Qed.

Lemma NoDup_signum_inj (l : list GSource) (x y : GSource) :
  NoDup (map source_signum l) ->
  In x l -> In y l -> source_signum x = source_signum y -> x = y.
Proof.
  induction l as [| z l IH]; simpl; intros H Hx Hy E; [contradiction |].
  inversion H as [| w m Hz Hl]; subst.
  destruct Hx as [Hx | Hx]; destruct Hy as [Hy | Hy].
  - congruence.
  - subst z. exfalso. apply Hz. rewrite E. apply in_map. exact Hy.
  - subst z. exfalso. apply Hz. rewrite <- E. apply in_map. exact Hx.
  - apply IH; assumption.
Qed.

Lemma NoDup_snoc (a : Z) (l : list Z) :
  NoDup l -> ~ In a l -> NoDup (l ++ [a]).
Proof.
  induction l as [| x l IH]; simpl; intros H Ha.
  - constructor; [tauto | constructor].
  - inversion H as [| y m Hx Hl]; subst. constructor.
    + intros K. apply in_app_or in K. simpl in K. intuition congruence.
    + apply IH; tauto.
Qed.

(** The dispatch of a source that is attached keeps the sources well formed,
    one per signal. *)
Lemma dispatch_sources_inv (src : GSource) (s : runtime) :
  In src (sources s) ->
  sources_inv s ->
  sources_inv (snd (dispatch src s)).
Proof.
  intros Hin [Hwf Hnd].
  rewrite (dispatch_attached src s (In_attached src s Hin)).
  destruct (cancelled s) eqn:Hc.
  - rewrite (signals_handler_already_cancelled _ _ Hc).
    unfold sources_inv. simpl. split.
    + apply Forall_filter_wf. exact Hwf.
    + apply NoDup_map_filter. exact Hnd.
  - rewrite (signals_handler_not_cancelled _ _ Hc).
    unfold sources_inv. simpl.
    assert (Hsrc : source_wf src)
      by (rewrite Forall_forall in Hwf; apply Hwf; exact Hin).
    destruct Hsrc as [Hmon Hdata].
    assert (Hsig : GPOINTER_TO_INT (source_data src) = source_signum src)
      by (rewrite Hdata; apply GPOINTER_TO_INT_monitored; exact Hmon).
    rewrite Hsig, filter_app. simpl.
    destruct (negb (Nat.eqb (next_source_id s) (source_id src))).
    + split.
      * apply Forall_app. split; [apply Forall_filter_wf; exact Hwf |].
        constructor; [| constructor]. split; simpl; assumption.
      * rewrite map_app. simpl.
        apply NoDup_snoc; [apply NoDup_map_filter; exact Hnd |].
        -- intros K. apply in_map_iff in K. destruct K as (z & Ez & Hz).
           apply filter_In in Hz. destruct Hz as [Hz Hne].
           assert (z = src) by (apply (NoDup_signum_inj (sources s)); assumption).
           subst z. rewrite Nat.eqb_refl in Hne. discriminate.
    + rewrite app_nil_r. split.
      * apply Forall_filter_wf. exact Hwf.
      * apply NoDup_map_filter. exact Hnd.
Qed.

Lemma step_sources_inv (e : event) (p : process) :
  sources_inv (runtime_of p) -> sources_inv (runtime_of (step e p)).
Proof.
  destruct p as [s | k s]; simpl; [| tauto].
  destruct e as [signum | ok].
  2: { rewrite operation_completed_result.
       destruct (loop_running s); [| tauto]. unfold sources_inv. simpl. tauto. }
  intros Hinv. unfold deliver.
  destruct (filter_watches_NoDup signum (sources s) (proj2 Hinv))
    as [E | [x E]]; rewrite E; simpl; [exact Hinv |].
  unfold bind.
  assert (Hx : In x (sources s)).
  { assert (H : In x (filter (watches signum) (sources s)))
      by (rewrite E; left; reflexivity).
    apply filter_In in H. tauto. }
  pose proof (dispatch_sources_inv x s Hx Hinv) as H.
  destruct (dispatch x s) as [u s1]. exact H.
Qed.

Lemma run_sources_inv (es : list event) :
  sources_inv (runtime_of (run_events es (Alive run_start))).
Proof.
  apply (run_events_invariant sources_inv (fun _ => True)).
  - intros e p _. apply step_sources_inv.
  - apply Forall_forall. intros; exact I.
  - unfold sources_inv. simpl. split.
    + repeat (constructor;
              [split; [simpl; unfold monitored_signals; simpl; auto 6
                      | reflexivity] |]).
      constructor.
    + repeat (constructor; [simpl; intuition discriminate |]).
      constructor.
Qed.

(** X5. At no point of any run does a source watch a signal other than the
    three: the delivery of any other signal finds no source to dispatch, so the
    handler is not called for it. *)
Theorem other_signals_not_intercepted (es : list event) (signum : Z) :
  ~ In signum monitored_signals ->
  filter (watches signum)
         (sources (runtime_of (run_events es (Alive run_start)))) = [] /\
  deliver signum (runtime_of (run_events es (Alive run_start))) = None.
Proof.
  intros Hnot.
  assert (Hf : filter (watches signum)
                      (sources (runtime_of (run_events es (Alive run_start))))
               = []).
  { destruct (run_sources_inv es) as [Hwf _].
    apply filter_nil_not_in.
    intros K. apply in_map_iff in K. destruct K as (x & Ex & Hx).
    rewrite Forall_forall in Hwf. destruct (Hwf x Hx) as [Hmon _].
    apply Hnot. rewrite <- Ex. exact Hmon. }
  split; [exact Hf |].
  unfold deliver. rewrite Hf. reflexivity.
Qed.

Lemma other_signals_not_intercepted_witness :
  filter (watches 3)
         (sources (runtime_of (run_events [Ev_signal SIGINT] (Alive run_start))))
  = [] /\
  deliver 3 (runtime_of (run_events [Ev_signal SIGINT] (Alive run_start))) = None.
Proof.
  apply (other_signals_not_intercepted [Ev_signal SIGINT] 3).
  unfold monitored_signals, SIGINT, SIGHUP, SIGTERM. simpl.
  intros [H | [H | [H | []]]]; discriminate.
Defined.

(** X6. At every point of every run there is at most one source per signal,
    so a delivery calls the handler once at most, and there are never more
    than three sources. *)
Theorem one_source_per_signal (es : list event) (signum : Z) :
  let s := runtime_of (run_events es (Alive run_start)) in
  (List.length (filter (watches signum) (sources s)) <= 1)%nat /\
  (List.length (sources s) <= 3)%nat.
Proof.
  simpl. destruct (run_sources_inv es) as [Hwf Hnd]. split.
  - destruct (filter_watches_NoDup signum _ Hnd) as [E | [x E]];
      rewrite E; simpl; lia.
  - rewrite <- (length_map source_signum).
    apply (NoDup_incl_length (l' := monitored_signals) Hnd).
    intros z Hz. apply in_map_iff in Hz. destruct Hz as (x & Ex & Hx).
    rewrite Forall_forall in Hwf. destruct (Hwf x Hx) as [Hmon _].
    rewrite <- Ex. exact Hmon.
Qed.

(** ** The states with the loop running *)

Lemma step_keeps_stopped (e : event) (p : process) :
  loop_running (runtime_of p) = false ->
  loop_running (runtime_of (step e p)) = false.
Proof.
  destruct p as [s | k s]; simpl; [| tauto].
  destruct e as [signum | ok].
  - destruct (deliver signum s) as [s' |] eqn:Hd; simpl; [| tauto].
    destruct (deliver_handled _ _ _ Hd) as (_ & _ & H). exact H.
  - intros H. rewrite operation_completed_result, H. exact H.
Qed.

Lemma monitored_dec (signum : Z) :
  {In signum monitored_signals} + {~ In signum monitored_signals}.
Proof. apply (in_dec Z.eq_dec). Qed.

(** While the loop runs the runtime is in one of four states: the one the
    loop is entered with, or the one a first signal leaves. *)
Lemma running_states (es : list event) :
  let s := runtime_of (run_events es (Alive run_start)) in
  loop_running s = false \/
  s = run_start \/
  exists sig, In sig monitored_signals /\
              s = runtime_of (step (Ev_signal sig) (Alive run_start)).
Proof.
  apply (run_events_invariant
           (fun s => loop_running s = false \/
                     s = run_start \/
                     exists sig, In sig monitored_signals /\
                                 s = runtime_of (step (Ev_signal sig)
                                                      (Alive run_start)))
           (fun _ => True)).
  - intros e p _ [H | [H | (sig & Hsig & H)]].
    + left. apply step_keeps_stopped. exact H.
    + destruct p as [s | k s]; simpl in H; subst s; [| right; left; reflexivity].
      destruct e as [signum | ok]; [| left; apply operation_completed_stops].
      destruct (monitored_dec signum) as [Hin | Hout].
      * right. right. exists signum. split; [exact Hin | reflexivity].
      * right. left. simpl. unfold deliver.
        rewrite filter_nil_not_in; [reflexivity |].
        simpl. unfold monitored_signals in Hout. simpl in Hout. tauto.
    + destruct p as [s | k s]; simpl in H; subst s;
        [| right; right; exists sig; split; [exact Hsig | reflexivity]].
      destruct e as [signum | ok]; [| left; apply operation_completed_stops].
      destruct (monitored_dec signum) as [Hin | Hout].
      * left. unfold monitored_signals in Hsig, Hin. simpl in Hsig, Hin.
        destruct Hsig as [<- | [<- | [<- | []]]];
          destruct Hin as [<- | [<- | [<- | []]]]; reflexivity.
      * right. right. exists sig. split; [exact Hsig |].
        assert (Hd : deliver signum
                       (runtime_of (step (Ev_signal sig) (Alive run_start)))
                     = None).
        { unfold deliver. rewrite filter_nil_not_in; [reflexivity |].
          unfold monitored_signals in Hsig, Hout. simpl in Hsig, Hout.
          destruct Hsig as [<- | [<- | [<- | []]]]; simpl; tauto. }
        simpl. simpl in Hd. rewrite Hd. reflexivity.
  - apply Forall_forall. intros; exact I.
  - right. left. reflexivity.
Qed.

(** X7. In any run, as long as the loop is running each of the three signals
    is watched by exactly one source, registered with the signal number as
    [user_data]: the next delivery of any of them is handled. *)
Theorem signals_watched_while_running (es : list event) (sig : Z) :
  In sig monitored_signals ->
  loop_running (runtime_of (run_events es (Alive run_start))) = true ->
  (exists id,
      filter (watches sig)
             (sources (runtime_of (run_events es (Alive run_start))))
      = [mkSource id sig (GUINT_TO_POINTER sig)]) /\
  deliver sig (runtime_of (run_events es (Alive run_start))) <> None.
Proof.
  intros Hsig Hrun.
  destruct (running_states es) as [H | [H | (sig0 & Hsig0 & H)]].
  - rewrite H in Hrun. discriminate.
  - rewrite H. unfold monitored_signals in Hsig. simpl in Hsig.
    destruct Hsig as [<- | [<- | [<- | []]]];
      (split; [eexists; reflexivity | discriminate]).
  - rewrite H. unfold monitored_signals in Hsig, Hsig0. simpl in Hsig, Hsig0.
    destruct Hsig0 as [<- | [<- | [<- | []]]];
      destruct Hsig as [<- | [<- | [<- | []]]];
      (split; [eexists; reflexivity | discriminate]).
Qed.

Lemma signals_watched_while_running_witness :
  (exists id,
      filter (watches SIGTERM)
             (sources (runtime_of (run_events [Ev_signal SIGHUP; Ev_signal 3]
                                              (Alive run_start))))
      = [mkSource id SIGTERM (GUINT_TO_POINTER SIGTERM)]) /\
  deliver SIGTERM
          (runtime_of (run_events [Ev_signal SIGHUP; Ev_signal 3]
                                  (Alive run_start))) <> None.
Proof.
  apply (signals_watched_while_running [Ev_signal SIGHUP; Ev_signal 3] SIGTERM).
  - simpl. auto.
  - reflexivity.
Defined.

(** ** Further properties of the log handler *)

(** X8. The verbose option only adds lines: a line written without it is
    written with it, the same line on the same stream. *)
Theorem verbose_only_adds (abmon : Z -> string) (opts opts' : options)
  (local_time : tm) (time_str0 : string) (log_domain : option string)
  (log_level : Z) (message : string) (user_data : Z)
  (written : stream * string) :
  silent_flag opts' = silent_flag opts ->
  verbose_flag opts' = true ->
  log_handler abmon opts local_time time_str0 log_domain log_level message
              user_data = Some written ->
  log_handler abmon opts' local_time time_str0 log_domain log_level message
              user_data = Some written.
Proof.
  intros Hs Hv. unfold log_handler. rewrite Hs, Hv.
  destruct (silent_flag opts); [discriminate |].
  destruct (log_level_switch log_level) as [str err].
  destruct (negb (verbose_flag opts) && negb err); [discriminate |].
  simpl. tauto.
Qed.

Lemma verbose_only_adds_witness :
  log_handler abmon_C
    (mkOptions (Some "/dev/cdc-wdm0") false false true false false)
    (mkTm 7 5 9 30 9 126) EmptyString (Some "Qmi") G_LOG_LEVEL_WARNING
    "cannot open" 0
  = Some (Stderr,
          ("[30 Oct 2026, 09:05:07] -Warning ** cannot open" ++ LF)%string).
Proof.
  apply (verbose_only_adds abmon_C
           (mkOptions (Some "/dev/cdc-wdm0") false false false false false)
           (mkOptions (Some "/dev/cdc-wdm0") false false true false false)).
  - reflexivity.
  - reflexivity.
  - vm_compute. reflexivity.
Defined.

(** ** The size of [time_str] *)

Lemma string_length_app (a b : string) :
  String.length (a ++ b)%string = (String.length a + String.length b)%nat.
Proof.
  induction a as [| c a IH]; simpl; [reflexivity | rewrite IH; reflexivity].
Qed.

Lemma decimal2_length (z : Z) :
  0 <= z <= 99 -> String.length (decimal2 z) = 2%nat.
Proof.
  intros Hz.
  assert (Hall : forallb (fun n => Nat.eqb (String.length (decimal2 (Z.of_nat n))) 2)
                         (seq 0 100) = true) by (vm_compute; reflexivity).
  rewrite forallb_forall in Hall.
  specialize (Hall (Z.to_nat z)).
  rewrite Z2Nat.id in Hall by lia.
  apply Nat.eqb_eq, Hall, in_seq. lia.
Qed.

Lemma decimal_length_year (z : Z) :
  1000 <= z <= 9999 -> String.length (decimal z) = 4%nat.
Proof.
  intros Hz.
  assert (Hall : forallb
                   (fun a =>
                      forallb
                        (fun r =>
                           Nat.eqb
                             (String.length
                                (decimal (1000 * Z.of_nat a + Z.of_nat r))) 4)
                        (seq 0 1000))
                   (seq 1 9) = true) by (vm_compute; reflexivity).
  rewrite forallb_forall in Hall.
  assert (Hq : 1 <= z / 1000 <= 9)
    by (Z.to_euclidean_division_equations; lia).
  assert (Hr : 0 <= z mod 1000 < 1000) by (apply Z.mod_pos_bound; lia).
  assert (Hdm : z = 1000 * (z / 1000) + z mod 1000) by (apply Z.div_mod; lia).
  revert Hq Hr Hdm.
  generalize (z / 1000) as q. generalize (z mod 1000) as r.
  intros r q Hq Hr Hdm.
  assert (Hin1 : In (Z.to_nat q) (seq 1 9)) by (apply in_seq; lia).
  assert (Hin2 : In (Z.to_nat r) (seq 0 1000)) by (apply in_seq; lia).
  specialize (Hall (Z.to_nat q) Hin1).
  rewrite forallb_forall in Hall.
  specialize (Hall (Z.to_nat r) Hin2).
  rewrite !Z2Nat.id in Hall by lia.
  rewrite <- Hdm in Hall.
  apply Nat.eqb_eq, Hall.
Qed.

(** X9. For a broken-down time in the ranges of [struct tm] and a year of
    four digits, the time string is 18 characters and the abbreviated month
    name.  It fits the 64 bytes of [time_str], and [strftime] succeeds, when
    the month name is at most 45 bytes long, and only then. *)
Theorem time_str_fits (abmon : Z -> string) (t : tm) :
  1 <= tm_mday t <= 31 ->
  0 <= tm_hour t <= 23 ->
  0 <= tm_min t <= 59 ->
  0 <= tm_sec t <= 60 ->
  1000 <= 1900 + tm_year t <= 9999 ->
  String.length (strftime_expand abmon "%d %b %Y, %H:%M:%S" t)
  = (18 + String.length (abmon (tm_mon t)))%nat /\
  ((String.length (abmon (tm_mon t)) <= 45)%nat ->
   strftime abmon 64 "%d %b %Y, %H:%M:%S" t
   = Some (strftime_expand abmon "%d %b %Y, %H:%M:%S" t)) /\
  ((46 <= String.length (abmon (tm_mon t)))%nat ->
   strftime abmon 64 "%d %b %Y, %H:%M:%S" t = None).
Proof.
  intros Hd Hh Hm Hs Hy.
  assert (Hlen : String.length (strftime_expand abmon "%d %b %Y, %H:%M:%S" t)
                 = (18 + String.length (abmon (tm_mon t)))%nat).
  { rewrite strftime_expand_format.
    repeat (rewrite string_length_app; cbn [String.length]).
    rewrite !decimal2_length by lia.
    rewrite decimal_length_year by lia. lia. }
  split; [exact Hlen |].
  unfold strftime. rewrite Hlen. split; intros Hb.
  - destruct (Nat.ltb_spec (18 + String.length (abmon (tm_mon t))) 64);
      [reflexivity | lia].
  - destruct (Nat.ltb_spec (18 + String.length (abmon (tm_mon t))) 64);
      [lia | reflexivity].
Qed.

Lemma time_str_fits_witness :
  strftime abmon_C 64 "%d %b %Y, %H:%M:%S" (mkTm 7 5 9 30 9 126)
  = Some (strftime_expand abmon_C "%d %b %Y, %H:%M:%S" (mkTm 7 5 9 30 9 126)).
Proof.
  pose proof (time_str_fits abmon_C (mkTm 7 5 9 30 9 126)) as H.
  simpl in H.
  destruct H as (_ & H & _); try lia.
  apply H. vm_compute. lia.
Defined.

(** ** The end of the interception *)

(** X10. In any run, once the token is cancelled every delivery that is
    handled leaves strictly fewer sources attached: after the first signal
    three more deliveries are handled at most, and then the three signals are
    back to their default disposition. *)
Theorem handled_delivery_removes_source (es : list event) (signum : Z)
  (s s' : runtime) :
  run_events es (Alive run_start) = Alive s ->
  cancelled s = true ->
  deliver signum s = Some s' ->
  (List.length (sources s') < List.length (sources s))%nat.
Proof.
  intros Hrun Hc Hd.
  destruct (deliver_cancelled _ _ _ Hc Hd) as (_ & Hincl & Hnone).
  assert (Hinv' : sources_inv s').
  { pose proof (run_sources_inv (es ++ [Ev_signal signum])) as H.
    rewrite run_events_app, Hrun in H. simpl in H. rewrite Hd in H. exact H. }
  destruct Hinv' as [_ Hnd'].
  assert (Hsig : In signum (map source_signum (sources s))).
  { unfold deliver in Hd.
    destruct (filter (watches signum) (sources s)) as [| src rest] eqn:Hf;
      [discriminate |].
    assert (Hx : In src (filter (watches signum) (sources s)))
      by (rewrite Hf; left; reflexivity).
    apply filter_In in Hx. destruct Hx as [Hx Hw].
    unfold watches in Hw. apply Z.eqb_eq in Hw.
    rewrite <- Hw. apply in_map. exact Hx. }
  rewrite <- (length_map source_signum (sources s')).
  rewrite <- (length_map source_signum (sources s)).
  apply Nat.le_lt_trans
    with (List.length (remove Z.eq_dec signum (map source_signum (sources s)))).
  - apply (NoDup_incl_length Hnd').
    intros z Hz. apply in_map_iff in Hz. destruct Hz as (x & Ex & Hx).
    apply in_in_remove.
    + intros E. subst z.
      assert (Hw : In x (filter (watches signum) (sources s'))).
      { apply filter_In. split; [exact Hx |].
        unfold watches. apply Z.eqb_eq. exact E. }
      rewrite Hnone in Hw. exact Hw.
    + rewrite <- Ex. apply in_map. apply Hincl. exact Hx.
  - apply remove_length_lt. exact Hsig.
Qed.

Lemma handled_delivery_removes_source_witness :
  (List.length
     (sources (runtime_of (run_events [Ev_signal SIGINT; Ev_signal SIGINT]
                                      (Alive run_start))))
   < List.length
       (sources (runtime_of (run_events [Ev_signal SIGINT] (Alive run_start)))))%nat.
Proof.
  apply (handled_delivery_removes_source [Ev_signal SIGINT] SIGINT
           (runtime_of (run_events [Ev_signal SIGINT] (Alive run_start)))
           (runtime_of (run_events [Ev_signal SIGINT; Ev_signal SIGINT]
                                   (Alive run_start)))).
  - reflexivity.
  - reflexivity.
  - reflexivity.
Defined.
